(** * Lumina AI: the application controller, the AI gateway and the compare
    slider, embedded from the TypeScript sources.

    Conventions of the embedding.
    - A JavaScript string is a [string] (its bytes in UTF-8).  Every pattern
      the code matches against is ASCII, and an ASCII byte never occurs inside
      a multi-byte sequence, so matching on bytes and on UTF-16 code units
      agree.
    - [null] and [undefined] are [None]; a value used as a condition is read
      through [truthy].
    - A React state setter is an [Effect]; an async handler is the list of
      effects it performs, in program order, the awaited gateway call among
      them.  The handler reads the state of the render it was created in (its
      closure), which is its first argument.  The effects before the call
      reach the store when the handler is invoked and those after it when the
      call settles; what happens on the page in between comes between them
      ([execAround], [pageStep]).
    - A JavaScript number that holds an index or a time is a [Z]; the pointer
      arithmetic of the slider is IEEE 754 binary64 ([spec_float]). *)

From Stdlib Require Import ZArith List String Ascii Bool Lia.
From Stdlib Require Import DecimalString.
From Stdlib Require Import SpecFloat.
Import ListNotations.

Local Open Scope string_scope.

(** ** JavaScript values used by the code *)

Module JS.

(** [Boolean(s)] of a possibly missing string: [null], [undefined] and the
    empty string are falsy. *)
Definition truthy (v : option string) : bool :=
  match v with
  | Some s => negb (String.eqb s "")
  | None => false
  end.

(** [v || d] where [d] is a string. *)
Definition orElse (v : option string) (d : string) : string :=
  if truthy v then match v with Some s => s | None => d end else d.

(** [v || w] where [w] may itself be missing. *)
Definition orElseOpt (v w : option string) : option string :=
  if truthy v then v else w.

(** [n.toString()] of an integer. *)
Definition toString (n : Z) : string := NilZero.string_of_int (Z.to_int n).

(** [s.split(sep)] for a one-character separator. *)
Fixpoint split (sep : ascii) (s : string) : list string :=
  match s with
  | EmptyString => [EmptyString]
  | String c rest =>
      if Ascii.eqb c sep then EmptyString :: split sep rest
      else match split sep rest with
           | piece :: pieces => String c piece :: pieces
           | [] => [String c EmptyString]
           end
  end.

(** [xs.join(sep)]. *)
Fixpoint join (sep : string) (xs : list string) : string :=
  match xs with
  | [] => ""
  | [x] => x
  | x :: rest => x ++ sep ++ join sep rest
  end.

(** [xs.slice(-n)]: the last [n] elements. *)
Definition sliceLast {A : Type} (n : nat) (xs : list A) : list A :=
  skipn (List.length xs - n) xs.

(** [Date.now()] is read several times by one handler; [now k] is the k-th
    reading. *)
Definition Clock : Type := nat -> Z.

(** The line feed of a template literal. *)
Definition LF : string := String (ascii_of_nat 10) EmptyString.

End JS.

(** ** types.ts *)

Module RoomImage.
Record t : Type := make {
  id : string;
  url : string;
  styleName : string;
  description : option string
}.
End RoomImage.

Inductive Role : Type := user | model.

Record GroundingUrl : Type := { uri : string; title : string }.

Module ChatMessage.
Record t : Type := make {
  id : string;
  role : Role;
  text : string;
  timestamp : Z;
  groundingUrls : option (list GroundingUrl)
}.
End ChatMessage.

Inductive ProcessingStatus : Type := IDLE | GENERATING | EDITING | ERROR.

Module StylePreset.
Record t : Type := make {
  id : string;
  name : string;
  prompt : string;
  thumbnailColor : string
}.
End StylePreset.

Definition status_eqb (a b : ProcessingStatus) : bool :=
  match a, b with
  | IDLE, IDLE | GENERATING, GENERATING | EDITING, EDITING | ERROR, ERROR => true
  | _, _ => false
  end.

Definition role_eqb (a b : Role) : bool :=
  match a, b with
  | user, user | model, model => true
  | _, _ => false
  end.

(** ** constants.ts *)

Definition STYLE_PRESETS : list StylePreset.t :=
  [ StylePreset.make "mid-century" "Mid-Century Modern"
      "Mid-Century Modern style, teak wood furniture, organic curves, geometric patterns, retro vibes, warm tones"
      "bg-amber-100";
    StylePreset.make "scandi" "Scandinavian"
      "Scandinavian style, minimalism, white walls, light wood floors, cozy textiles, functional furniture, bright and airy"
      "bg-slate-100";
    StylePreset.make "industrial" "Industrial Lofts"
      "Industrial style, exposed brick, metal accents, leather furniture, concrete floors, raw materials, edgy and modern"
      "bg-stone-300";
    StylePreset.make "boho" "Bohemian Chic"
      "Bohemian style, eclectic patterns, plants everywhere, rattan furniture, layered rugs, warm earthy colors, relaxed atmosphere"
      "bg-orange-100";
    StylePreset.make "japandi" "Japandi"
      "Japandi style, blend of Japanese rustic minimalism and Scandinavian functionality, clean lines, bright spaces, natural materials"
      "bg-green-50" ].

(** ** services/geminiService.ts *)

(** The shapes of the generative service's SDK that the gateway reads and
    writes.  The service itself is outside the repository: [Service] is what it
    answers to a request, and is an argument of every gateway operation. *)
Module Gemini.

Record InlineData : Type := {
  mimeType : option string;
  data : option string
}.

Record Part : Type := {
  inlineData : option InlineData;
  text : option string
}.

Record Content : Type := { parts : option (list Part) }.

Record GroundingChunk : Type := { web : option GroundingUrl }.

Record GroundingMetadata : Type := {
  groundingChunks : option (list GroundingChunk)
}.

Record Candidate : Type := {
  content : option Content;
  groundingMetadata : option GroundingMetadata
}.

Record Response : Type := {
  candidates : option (list Candidate);
  responseText : option string
}.

Inductive Tool : Type := googleSearch.

Record Config : Type := {
  systemInstruction : string;
  tools : list Tool
}.

Record Request : Type := {
  requestModel : string;
  contents : list Part;
  config : option Config
}.

(** [await ai.models.generateContent(request)] either throws or yields a
    response. *)
Inductive Reply : Type :=
| Threw
| Responded (response : Response).

Definition Service : Type := Request -> Reply.

End Gemini.

(** What a rejected gateway promise carries: an [Error] built by the gateway,
    or whatever the service call threw. *)
Inductive GatewayError : Type :=
| ErrorMessage (message : string)
| ServiceFailure.

(** The outcome of an awaited promise. *)
Inductive Settled (A : Type) : Type :=
| Fulfilled (value : A)
| Rejected (error : GatewayError).

Arguments Fulfilled {A} value.
Arguments Rejected {A} error.

Definition stripBase64Prefix (base64Str : string) : string :=
  JS.orElse (nth_error (JS.split "," base64Str) 1) base64Str.

Definition getMimeType (base64Str : string) : string :=
  JS.orElse
    (match nth_error (JS.split ";" base64Str) 0 with
     | Some head => nth_error (JS.split ":" head) 1
     | None => None
     end)
    "image/jpeg".

(** [`${v}`] of a possibly undefined string. *)
Definition interpolate (v : option string) : string :=
  match v with
  | Some s => s
  | None => "undefined"
  end.

Definition textPart (s : string) : Gemini.Part :=
  {| Gemini.inlineData := None; Gemini.text := Some s |}.

Definition imagePart (imageBase64 : string) : Gemini.Part :=
  {| Gemini.inlineData :=
       Some {| Gemini.mimeType := Some (getMimeType imageBase64);
               Gemini.data := Some (stripBase64Prefix imageBase64) |};
     Gemini.text := None |}.

(** [response.candidates?.[0]?.content?.parts || []]. *)
Definition responseParts (response : Gemini.Response) : list Gemini.Part :=
  match Gemini.candidates response with
  | Some (candidate :: _) =>
      match Gemini.content candidate with
      | Some content =>
          match Gemini.parts content with
          | Some parts => parts
          | None => []
          end
      | None => []
      end
  | _ => []
  end.

Definition dataUrl (d : Gemini.InlineData) : string :=
  "data:" ++ JS.orElse (Gemini.mimeType d) "image/jpeg" ++ ";base64,"
  ++ interpolate (Gemini.data d).

(** The loop [for (const part of parts) if (part.inlineData) return ...]:
    the data URL of the first part that carries inline data. *)
Fixpoint extractImage (parts : list Gemini.Part) : option string :=
  match parts with
  | [] => None
  | part :: rest =>
      match Gemini.inlineData part with
      | Some d => Some (dataUrl d)
      | None => extractImage rest
      end
  end.

Definition imageModel : string := "gemini-2.5-flash-image".

Definition regeneratePrompt (stylePrompt : string) : string :=
  "Redesign this room interior. Keep the structural layout (walls, windows, doors) exactly the same. Apply the following style: "
  ++ stylePrompt
  ++ ". Make it photorealistic, high quality interior design photography.".

Definition regenerateRequest (imageBase64 stylePrompt : string) : Gemini.Request :=
  let prompt := regeneratePrompt stylePrompt in
  {| Gemini.requestModel := imageModel;
     Gemini.contents := [textPart prompt; imagePart imageBase64];
     Gemini.config := None |}.

Definition generateReimaginedRoom (ai : Gemini.Service)
    (imageBase64 stylePrompt : string) : Settled string :=
  match ai (regenerateRequest imageBase64 stylePrompt) with
  | Gemini.Responded response =>
      match extractImage (responseParts response) with
      | Some url => Fulfilled url
      | None => Rejected (ErrorMessage "No image generated.")
      end
  | Gemini.Threw => Rejected ServiceFailure
  end.

Definition editPrompt (userInstruction : string) : string :=
  "Edit this image. Instruction: " ++ userInstruction
  ++ ". Maintain the rest of the image exactly as is. Photorealistic.".

Definition editRequest (imageBase64 userInstruction : string) : Gemini.Request :=
  let prompt := editPrompt userInstruction in
  {| Gemini.requestModel := imageModel;
     Gemini.contents := [textPart prompt; imagePart imageBase64];
     Gemini.config := None |}.

Definition editRoomImage (ai : Gemini.Service)
    (imageBase64 userInstruction : string) : Settled string :=
  match ai (editRequest imageBase64 userInstruction) with
  | Gemini.Responded response =>
      match extractImage (responseParts response) with
      | Some url => Fulfilled url
      | None => Rejected (ErrorMessage "No edited image generated.")
      end
  | Gemini.Threw => Rejected ServiceFailure
  end.

Definition systemInstruction : string :=
  "You are an expert Interior Design Consultant. " ++ JS.LF
  ++ "  Your goal is to help users refine their room designs and find products." ++ JS.LF
  ++ "  The user is looking at a specific design iteration of their room." ++ JS.LF
  ++ "  If the user asks for products, furniture, or decor, use Google Search to find REAL, shoppable links." ++ JS.LF
  ++ "  Be helpful, concise, and stylish in your tone.".

Definition historyLine (m : ChatMessage.t) : string :=
  (if role_eqb (ChatMessage.role m) user then "User" else "Designer")
  ++ ": " ++ ChatMessage.text m.

(** The [forEach] over the grounding chunks: the chunks with a [web] entry,
    in order. *)
Fixpoint collectGrounding (chunks : list Gemini.GroundingChunk) : list GroundingUrl :=
  match chunks with
  | [] => []
  | chunk :: rest =>
      match Gemini.web chunk with
      | Some w => {| uri := uri w; title := title w |} :: collectGrounding rest
      | None => collectGrounding rest
      end
  end.

(** [response.candidates?.[0]?.groundingMetadata?.groundingChunks]. *)
Definition responseChunks (response : Gemini.Response) : option (list Gemini.GroundingChunk) :=
  match Gemini.candidates response with
  | Some (candidate :: _) =>
      match Gemini.groundingMetadata candidate with
      | Some meta => Gemini.groundingChunks meta
      | None => None
      end
  | _ => None
  end.

Definition sendChatMessage (ai : Gemini.Service) (now : JS.Clock)
    (history : list ChatMessage.t) (newMessage : string)
    (currentImageBase64 : option string) : Settled ChatMessage.t :=
  let context :=
    match currentImageBase64 with
    | Some image =>
        if JS.truthy currentImageBase64
        then [imagePart image;
              textPart "This is the current room design we are discussing."]
        else []
    | None => []
    end in
  let historyText := JS.join JS.LF (map historyLine (JS.sliceLast 6 history)) in
  let fullPrompt :=
    historyText ++ JS.LF ++ "User: " ++ newMessage ++ JS.LF ++ "Designer:" in
  let parts := (context ++ [textPart fullPrompt])%list in
  match ai {| Gemini.requestModel := "gemini-3-pro-preview";
              Gemini.contents := parts;
              Gemini.config :=
                Some {| Gemini.systemInstruction := systemInstruction;
                        Gemini.tools := [Gemini.googleSearch] |} |} with
  | Gemini.Responded response =>
      let groundingUrls :=
        match responseChunks response with
        | Some chunks => collectGrounding chunks
        | None => []
        end in
      Fulfilled
        (ChatMessage.make
           (JS.toString (now 0%nat))
           model
           (JS.orElse (Gemini.responseText response)
              "I couldn't generate a response. Please try again.")
           (now 1%nat)
           (Some groundingUrls))
  | Gemini.Threw => Rejected ServiceFailure
  end.

(** ** App.tsx: the application controller *)

(** The six [useState] cells of [App]. *)
Record AppState : Type := {
  originalImage : option string;
  generatedImages : list RoomImage.t;
  selectedImageIndex : Z;
  status : ProcessingStatus;
  chatMessages : list ChatMessage.t;
  errorMsg : option string
}.

(** The initial values of the [useState] calls. *)
Definition initialState : AppState :=
  {| originalImage := None;
     generatedImages := [];
     selectedImageIndex := (-1)%Z;
     status := IDLE;
     chatMessages := [];
     errorMsg := None |}.

(** The gateway operations as the controller calls them. *)
Inductive GatewayCall : Type :=
| CallGenerateReimaginedRoom (imageBase64 stylePrompt : string)
| CallEditRoomImage (imageBase64 userInstruction : string)
| CallSendChatMessage (history : list ChatMessage.t) (newMessage : string)
    (currentImageBase64 : option string).

(** What a handler does, one step at a time.  [AppendGeneratedImage img] is
    [setGeneratedImages(prev => [...prev, img])] and [AppendChatMessage m] is
    [setChatMessages(prev => [...prev, m])]: both read the store at the time
    they are applied.  Every other setter stores a value computed by the
    handler; [setSelectedImageIndex(prev => generatedImages.length)] is such a
    one, its argument ignores [prev] and reads the handler's closure. *)
Inductive Effect : Type :=
| SetOriginalImage (value : option string)
| SetGeneratedImages (value : list RoomImage.t)
| AppendGeneratedImage (newImage : RoomImage.t)
| SetSelectedImageIndex (value : Z)
| SetStatus (value : ProcessingStatus)
| SetChatMessages (value : list ChatMessage.t)
| AppendChatMessage (message : ChatMessage.t)
| SetErrorMsg (value : option string)
| Await (call : GatewayCall).

Definition apply (e : Effect) (s : AppState) : AppState :=
  match e with
  | SetOriginalImage v =>
      {| originalImage := v; generatedImages := generatedImages s;
         selectedImageIndex := selectedImageIndex s; status := status s;
         chatMessages := chatMessages s; errorMsg := errorMsg s |}
  | SetGeneratedImages v =>
      {| originalImage := originalImage s; generatedImages := v;
         selectedImageIndex := selectedImageIndex s; status := status s;
         chatMessages := chatMessages s; errorMsg := errorMsg s |}
  | AppendGeneratedImage img =>
      {| originalImage := originalImage s;
         generatedImages := (generatedImages s ++ [img])%list;
         selectedImageIndex := selectedImageIndex s; status := status s;
         chatMessages := chatMessages s; errorMsg := errorMsg s |}
  | SetSelectedImageIndex v =>
      {| originalImage := originalImage s; generatedImages := generatedImages s;
         selectedImageIndex := v; status := status s;
         chatMessages := chatMessages s; errorMsg := errorMsg s |}
  | SetStatus v =>
      {| originalImage := originalImage s; generatedImages := generatedImages s;
         selectedImageIndex := selectedImageIndex s; status := v;
         chatMessages := chatMessages s; errorMsg := errorMsg s |}
  | SetChatMessages v =>
      {| originalImage := originalImage s; generatedImages := generatedImages s;
         selectedImageIndex := selectedImageIndex s; status := status s;
         chatMessages := v; errorMsg := errorMsg s |}
  | AppendChatMessage m =>
      {| originalImage := originalImage s; generatedImages := generatedImages s;
         selectedImageIndex := selectedImageIndex s; status := status s;
         chatMessages := (chatMessages s ++ [m])%list; errorMsg := errorMsg s |}
  | SetErrorMsg v =>
      {| originalImage := originalImage s; generatedImages := generatedImages s;
         selectedImageIndex := selectedImageIndex s; status := status s;
         chatMessages := chatMessages s; errorMsg := v |}
  | Await _ => s
  end.

(** The store after the effects of a handler, applied in order. *)
Definition exec (effects : list Effect) (s : AppState) : AppState :=
  fold_left (fun acc e => apply e acc) effects s.

(** [selectedImageIndex >= 0 ? generatedImages[selectedImageIndex] : null];
    an index past the end reads [undefined]. *)
Definition currentDisplayedImage (s : AppState) : option RoomImage.t :=
  if (0 <=? selectedImageIndex s)%Z
  then nth_error (generatedImages s) (Z.to_nat (selectedImageIndex s))
  else None.

(** The result of the [FileReader] of an upload, when a file was chosen:
    [e.target.files?.[0]] and then [reader.result]. *)
Definition handleFileUpload (file : option (option string)) : list Effect :=
  match file with
  | Some base64 =>
      [ SetOriginalImage base64;
        SetGeneratedImages [];
        SetSelectedImageIndex (-1)%Z;
        SetChatMessages [];
        SetStatus IDLE;
        SetErrorMsg None ]
  | None => []
  end.

(** [sample] is the outcome of fetching the sample picture and reading it:
    [None] when the fetch threw. *)
Definition handleSampleImage (sample : option (option string)) : list Effect :=
  match sample with
  | Some base64 =>
      [ SetOriginalImage base64;
        SetGeneratedImages [];
        SetSelectedImageIndex (-1)%Z;
        SetChatMessages [];
        SetStatus IDLE;
        SetErrorMsg None ]
  | None =>
      [ SetErrorMsg (Some "Could not load sample image. Please upload one instead.") ]
  end.

(** The [onClick] of the "Start Over" button. *)
Definition resetButton_onClick : list Effect :=
  [ SetOriginalImage None;
    SetGeneratedImages [];
    SetChatMessages [] ].

Definition handleStyleSelect (ai : Gemini.Service) (now : JS.Clock)
    (s : AppState) (styleId : string) : list Effect :=
  match originalImage s with
  | None => []
  | Some original =>
      if negb (JS.truthy (originalImage s)) || status_eqb (status s) GENERATING
      then []
      else
        match find (fun p => String.eqb (StylePreset.id p) styleId) STYLE_PRESETS with
        | None => []
        | Some style =>
            ([ SetStatus GENERATING;
               SetErrorMsg None;
               Await (CallGenerateReimaginedRoom original (StylePreset.prompt style)) ]
             ++ match generateReimaginedRoom ai original (StylePreset.prompt style) with
                | Fulfilled resultBase64 =>
                    let newImage :=
                      RoomImage.make
                        (JS.toString (now 0%nat))
                        resultBase64
                        (StylePreset.name style)
                        (Some ("Reimagined in " ++ StylePreset.name style ++ " style")%string) in
                    [ AppendGeneratedImage newImage;
                      SetSelectedImageIndex (Z.of_nat (List.length (generatedImages s))) ]
                | Rejected _ =>
                    [ SetErrorMsg (Some "Failed to generate design. Please try again.") ]
                end
             ++ [ SetStatus IDLE ])%list
        end
  end.

(** *** The edit-command pattern [/change|add|remove|make|turn/i]

    The pattern is a disjunction of literal alternatives.  Without the [u]
    flag, [i] compares characters after [Canonicalize], which maps a character
    to its upper case and leaves every character whose upper case is not a
    single code unit of the same range alone; on the bytes of a string this is
    [a-z] to [A-Z]. *)
Module RegExp.

Definition canonicalize (c : ascii) : ascii :=
  let n := nat_of_ascii c in
  if ((97 <=? n) && (n <=? 122))%nat then ascii_of_nat (n - 32) else c.

(** One alternative, a run of pattern characters, matched at the start of
    [s]. *)
Fixpoint matchLiteral (ignoreCase : bool) (pattern s : string) : bool :=
  match pattern with
  | EmptyString => true
  | String p pattern' =>
      match s with
      | EmptyString => false
      | String c s' =>
          (if ignoreCase
           then Ascii.eqb (canonicalize p) (canonicalize c)
           else Ascii.eqb p c)
          && matchLiteral ignoreCase pattern' s'
      end
  end.

(** The disjunction matched at the start of [s]: the alternatives are tried
    from left to right. *)
Definition matchAt (ignoreCase : bool) (alternatives : list string) (s : string) : bool :=
  existsb (fun pattern => matchLiteral ignoreCase pattern s) alternatives.

(** [regexp.test(s)] for a pattern without the [g] and [y] flags: the match
    is tried at index 0, 1, ... up to the length of [s]. *)
Fixpoint test (ignoreCase : bool) (alternatives : list string) (s : string) : bool :=
  matchAt ignoreCase alternatives s
  || match s with
     | EmptyString => false
     | String _ s' => test ignoreCase alternatives s'
     end.

End RegExp.

Definition editTokens : list string := ["change"; "add"; "remove"; "make"; "turn"].

Definition isEditCommand (text : string) : bool :=
  RegExp.test true editTokens text.

Definition handleChatRequest (ai : Gemini.Service) (now : JS.Clock)
    (s : AppState) (text : string) : list Effect :=
  if status_eqb (status s) EDITING then []
  else
    let userMsg :=
      ChatMessage.make (JS.toString (now 0%nat)) user text (now 1%nat) None in
    match (if isEditCommand text then currentDisplayedImage s else None) with
    | Some displayed =>
        let sourceImage := RoomImage.url displayed in
        let systemMsg :=
          ChatMessage.make (JS.toString (now 2%nat + 1)%Z) model
            "I'm applying those changes to the design..." (now 3%nat) None in
        ([ AppendChatMessage userMsg;
           SetStatus EDITING;
           AppendChatMessage systemMsg;
           Await (CallEditRoomImage sourceImage text) ]
         ++ match editRoomImage ai sourceImage text with
            | Fulfilled editedBase64 =>
                let newImage :=
                  RoomImage.make (JS.toString (now 4%nat)) editedBase64
                    "Custom Edit" (Some text) in
                let doneMsg :=
                  ChatMessage.make (JS.toString (now 5%nat + 2)%Z) model
                    "Here is the updated design based on your request."
                    (now 6%nat) None in
                [ AppendGeneratedImage newImage;
                  SetSelectedImageIndex (Z.of_nat (List.length (generatedImages s)));
                  AppendChatMessage doneMsg ]
            | Rejected _ =>
                let errChat :=
                  ChatMessage.make (JS.toString (now 4%nat)) model
                    "Sorry, I encountered an issue editing the image."
                    (now 5%nat) None in
                [ AppendChatMessage errChat ]
            end
         ++ [ SetStatus IDLE ])%list
    | None =>
        let contextImage :=
          JS.orElseOpt
            (JS.orElseOpt (option_map RoomImage.url (currentDisplayedImage s))
               (originalImage s))
            None in
        ([ AppendChatMessage userMsg;
           SetStatus GENERATING;
           Await (CallSendChatMessage (chatMessages s) text contextImage) ]
         ++ match sendChatMessage ai (fun k => now (k + 2)%nat)
                    (chatMessages s) text contextImage with
            | Fulfilled responseMsg => [ AppendChatMessage responseMsg ]
            | Rejected _ =>
                let errChat :=
                  ChatMessage.make (JS.toString (now 2%nat)) model
                    "I'm having trouble connecting right now. Please try again."
                    (now 3%nat) None in
                [ AppendChatMessage errChat ]
            end
         ++ [ SetStatus IDLE ])%list
    end.

(** *** What the views let through

    The style buttons carry [disabled={status !== ProcessingStatus.IDLE}], and
    a disabled button does not run its [onClick]. *)
Definition styleButton_onClick (ai : Gemini.Service) (now : JS.Clock)
    (s : AppState) (styleId : string) : list Effect :=
  if negb (status_eqb (status s) IDLE) then []
  else handleStyleSelect ai now s styleId.

(** The [onClick] of a thumbnail of the history. *)
Definition thumbnail_onClick (idx : nat) : list Effect :=
  [ SetSelectedImageIndex (Z.of_nat idx) ].

(** ** components/ChatInterface.tsx *)

Section ChatInterface.

(** [String.prototype.trim], a built-in of the language. *)
Variable trim : string -> string.

(** [handleSubmit]: the text handed to [onSendMessage], if any, and the new
    value of the input box. *)
Definition handleSubmit (input : string) (isProcessing : bool) : option string * string :=
  if JS.truthy (Some (trim input)) && negb isProcessing
  then (Some (trim input), "")
  else (None, input).

(** [App] renders the chat with [onSendMessage={handleChatRequest}] and
    [isProcessing={status !== ProcessingStatus.IDLE}]: a submission of the
    chat form as the controller sees it. *)
Definition chatForm_onSubmit (ai : Gemini.Service) (now : JS.Clock)
    (s : AppState) (input : string) : list Effect :=
  match fst (handleSubmit input (negb (status_eqb (status s) IDLE))) with
  | Some text => handleChatRequest ai now s text
  | None => []
  end.

End ChatInterface.

(** ** components/CompareSlider.tsx *)

(** A JavaScript number is an IEEE 754 binary64 value; the arithmetic operators
    round to nearest, ties to even. *)
Module Number.

Definition t : Type := spec_float.

Definition prec : Z := 53%Z.
Definition emax : Z := 1024%Z.

Definition sub (a b : t) : t := SFsub prec emax a b.
Definition mul (a b : t) : t := SFmul prec emax a b.
Definition div (a b : t) : t := SFdiv prec emax a b.

(** An integer literal of the program text. *)
Definition ofZ (n : Z) : t := binary_normalize prec emax n 0%Z false.

Definition isNaN (a : t) : bool :=
  match a with
  | S754_nan => true
  | _ => false
  end.

(** Neither [NaN] nor an infinity. *)
Definition isFinite (a : t) : bool :=
  match a with
  | S754_zero _ | S754_finite _ _ _ => true
  | S754_infinity _ | S754_nan => false
  end.

Definition isZero (a : t) : bool :=
  match a with
  | S754_zero _ => true
  | _ => false
  end.

(** [Math.min(a, b)]: [NaN] when either argument is [NaN]; [-0] is smaller
    than [+0]. *)
Definition min (a b : t) : t :=
  match SFcompare a b with
  | None => S754_nan
  | Some Lt => a
  | Some Gt => b
  | Some Eq =>
      match a, b with
      | S754_zero false, S754_zero true => b
      | _, _ => a
      end
  end.

(** [Math.max(a, b)]: [NaN] when either argument is [NaN]; [+0] is larger
    than [-0]. *)
Definition max (a b : t) : t :=
  match SFcompare a b with
  | None => S754_nan
  | Some Gt => a
  | Some Lt => b
  | Some Eq =>
      match a, b with
      | S754_zero true, S754_zero false => b
      | _, _ => a
      end
  end.

(** [0 <= a && a <= 100]. *)
Definition isPercentage (a : t) : bool :=
  SFleb (ofZ 0) a && SFleb a (ofZ 100).

End Number.

(** The two fields of [getBoundingClientRect()] that the slider reads. *)
Record DOMRect : Type := {
  left : Number.t;
  width : Number.t
}.

(** [useState(50)]. *)
Definition initialSliderPosition : Number.t := Number.ofZ 50.

(** [handleMove]: the new [sliderPosition].  [current] is
    [containerRef.current], given by its bounding rectangle. *)
Definition handleMove (current : option DOMRect) (sliderPosition : Number.t)
    (clientX : Number.t) : Number.t :=
  match current with
  | Some rect =>
      let x :=
        Number.max (Number.ofZ 0)
          (Number.min (Number.sub clientX (left rect)) (width rect)) in
      let percent :=
        Number.max (Number.ofZ 0)
          (Number.min (Number.mul (Number.div x (width rect)) (Number.ofZ 100))
             (Number.ofZ 100)) in
      percent
  | None => sliderPosition
  end.

(** ** Observations on a run *)

(** The gateway calls of a run, in order. *)
Fixpoint requests (effects : list Effect) : list GatewayCall :=
  match effects with
  | [] => []
  | Await call :: rest => call :: requests rest
  | _ :: rest => requests rest
  end.

(** The images a run appends to [generatedImages], in order. *)
Fixpoint appendedImages (effects : list Effect) : list RoomImage.t :=
  match effects with
  | [] => []
  | AppendGeneratedImage img :: rest => img :: appendedImages rest
  | _ :: rest => appendedImages rest
  end.

(** The messages a run appends to [chatMessages], in order. *)
Fixpoint appendedMessages (effects : list Effect) : list ChatMessage.t :=
  match effects with
  | [] => []
  | AppendChatMessage m :: rest => m :: appendedMessages rest
  | _ :: rest => appendedMessages rest
  end.


(** The run sets the status to [GENERATING] or [EDITING]. *)
Definition entersBusy (effects : list Effect) : bool :=
  existsb
    (fun e =>
       match e with
       | SetStatus GENERATING | SetStatus EDITING => true
       | _ => false
       end)
    effects.

(** The runs of the two handlers that call the gateway, from the render [s]. *)
Inductive controllerRun (ai : Gemini.Service) (now : JS.Clock) (s : AppState)
  : list Effect -> Prop :=
| RunStyleSelect (styleId : string) :
    controllerRun ai now s (handleStyleSelect ai now s styleId)
| RunChatRequest (text : string) :
    controllerRun ai now s (handleChatRequest ai now s text).

(** One press of a style button, with the service and the clock of that
    press. *)
Record StyleSelection : Type := {
  selectionService : Gemini.Service;
  selectionClock : JS.Clock;
  selectionStyle : string
}.

(** A handler run to completion on the state it was created in: no other
    update comes between its effects. *)
Definition selectStyle (sel : StyleSelection) (s : AppState) : AppState :=
  exec (handleStyleSelect (selectionService sel) (selectionClock sel) s
          (selectionStyle sel)) s.

Definition submitChat (ai : Gemini.Service) (now : JS.Clock) (text : string)
    (s : AppState) : AppState :=
  exec (handleChatRequest ai now s text) s.

(** Style selections one after the other. *)
Definition selectStyles (sels : list StyleSelection) (s : AppState) : AppState :=
  fold_left (fun acc sel => selectStyle sel acc) sels s.

(** The selection names a preset and the gateway returns an image for it. *)
Definition generationSucceeds (original : string) (sel : StyleSelection) : Prop :=
  exists style url,
    find (fun p => String.eqb (StylePreset.id p) (selectionStyle sel)) STYLE_PRESETS
      = Some style
    /\ generateReimaginedRoom (selectionService sel) original (StylePreset.prompt style)
       = Fulfilled url.

Definition noInlineData (p : Gemini.Part) : Prop := Gemini.inlineData p = None.

(** ** The two handlers, unfolded *)

(** What [handleStyleSelect] does once its guards are passed. *)
Definition styleRun (ai : Gemini.Service) (now : JS.Clock) (s : AppState)
    (original : string) (style : StylePreset.t) : list Effect :=
  ([ SetStatus GENERATING;
     SetErrorMsg None;
     Await (CallGenerateReimaginedRoom original (StylePreset.prompt style)) ]
   ++ match generateReimaginedRoom ai original (StylePreset.prompt style) with
      | Fulfilled resultBase64 =>
          [ AppendGeneratedImage
              (RoomImage.make (JS.toString (now 0%nat)) resultBase64
                 (StylePreset.name style)
                 (Some ("Reimagined in " ++ StylePreset.name style ++ " style")%string));
            SetSelectedImageIndex (Z.of_nat (List.length (generatedImages s))) ]
      | Rejected _ =>
          [ SetErrorMsg (Some "Failed to generate design. Please try again.") ]
      end
   ++ [ SetStatus IDLE ])%list.

(** The message [handleChatRequest] builds from the submitted text. *)
Definition userMessage (now : JS.Clock) (text : string) : ChatMessage.t :=
  ChatMessage.make (JS.toString (now 0%nat)) user text (now 1%nat) None.

Definition applyingMessage (now : JS.Clock) : ChatMessage.t :=
  ChatMessage.make (JS.toString (now 2%nat + 1)%Z) model
    "I'm applying those changes to the design..." (now 3%nat) None.

Definition editFailedMessage (now : JS.Clock) : ChatMessage.t :=
  ChatMessage.make (JS.toString (now 4%nat)) model
    "Sorry, I encountered an issue editing the image." (now 5%nat) None.

(** The edit path of [handleChatRequest], on the displayed image. *)
Definition editRun (ai : Gemini.Service) (now : JS.Clock) (s : AppState)
    (text : string) (displayed : RoomImage.t) : list Effect :=
  ([ AppendChatMessage (userMessage now text);
     SetStatus EDITING;
     AppendChatMessage (applyingMessage now);
     Await (CallEditRoomImage (RoomImage.url displayed) text) ]
   ++ match editRoomImage ai (RoomImage.url displayed) text with
      | Fulfilled editedBase64 =>
          [ AppendGeneratedImage
              (RoomImage.make (JS.toString (now 4%nat)) editedBase64
                 "Custom Edit" (Some text));
            SetSelectedImageIndex (Z.of_nat (List.length (generatedImages s)));
            AppendChatMessage
              (ChatMessage.make (JS.toString (now 5%nat + 2)%Z) model
                 "Here is the updated design based on your request."
                 (now 6%nat) None) ]
      | Rejected _ => [ AppendChatMessage (editFailedMessage now) ]
      end
   ++ [ SetStatus IDLE ])%list.

Definition contextImage (s : AppState) : option string :=
  JS.orElseOpt
    (JS.orElseOpt (option_map RoomImage.url (currentDisplayedImage s))
       (originalImage s))
    None.

(** The chat path of [handleChatRequest]. *)
Definition chatRun (ai : Gemini.Service) (now : JS.Clock) (s : AppState)
    (text : string) : list Effect :=
  ([ AppendChatMessage (userMessage now text);
     SetStatus GENERATING;
     Await (CallSendChatMessage (chatMessages s) text (contextImage s)) ]
   ++ match sendChatMessage ai (fun k => now (k + 2)%nat)
              (chatMessages s) text (contextImage s) with
      | Fulfilled responseMsg => [ AppendChatMessage responseMsg ]
      | Rejected _ =>
          [ AppendChatMessage
              (ChatMessage.make (JS.toString (now 2%nat)) model
                 "I'm having trouble connecting right now. Please try again."
                 (now 3%nat) None) ]
      end
   ++ [ SetStatus IDLE ])%list.

(** A run without observable effect: it calls no gateway operation, appends
    nothing, and leaves every store as it is. *)
Definition withoutEffect (effects : list Effect) : Prop :=
  requests effects = []
  /\ appendedImages effects = []
  /\ appendedMessages effects = []
  /\ forall store, exec effects store = store.

(** From [s] to [s'] one image was appended and it is the selected one: the
    selected index is the length the sequence had before. *)
Definition appendsAndSelects (s s' : AppState) : Prop :=
  exists img,
    generatedImages s' = (generatedImages s ++ [img])%list
    /\ selectedImageIndex s' = Z.of_nat (List.length (generatedImages s)).

(** ** The edit-command classification in the spec's words *)

Definition toLowerAscii (c : ascii) : ascii :=
  let n := nat_of_ascii c in
  if ((65 <=? n) && (n <=? 90))%nat then ascii_of_nat (n + 32) else c.

Fixpoint toLowerCase (s : string) : string :=
  match s with
  | EmptyString => EmptyString
  | String c rest => String (toLowerAscii c) (toLowerCase rest)
  end.

(** [text] contains [token] as a substring, letter case apart. *)
Definition containsIgnoringCase (token text : string) : Prop :=
  exists before occurrence after,
    text = before ++ occurrence ++ after
    /\ toLowerCase occurrence = toLowerCase token.

(** The text contains at least one of "change", "add", "remove", "make",
    "turn", case-insensitively. *)
Definition mentionsEditToken (text : string) : Prop :=
  containsIgnoringCase "change" text
  \/ containsIgnoringCase "add" text
  \/ containsIgnoringCase "remove" text
  \/ containsIgnoringCase "make" text
  \/ containsIgnoringCase "turn" text.

(** ** Sample data *)

Module Sample.

Definition photo : string := "data:image/png;base64,AAAA".

Definition clock : JS.Clock := fun k => (1700000000000 + Z.of_nat k)%Z.

Definition picture : Gemini.Part :=
  {| Gemini.inlineData :=
       Some {| Gemini.mimeType := Some "image/png"; Gemini.data := Some "BBBB" |};
     Gemini.text := None |}.

Definition caption : Gemini.Part :=
  {| Gemini.inlineData := None; Gemini.text := Some "Here you are." |}.

Definition responseOf (parts : list Gemini.Part) : Gemini.Response :=
  {| Gemini.candidates :=
       Some [ {| Gemini.content := Some {| Gemini.parts := Some parts |};
                 Gemini.groundingMetadata := None |} ];
     Gemini.responseText := Some "Here you are." |}.

(** A service that answers every request with a caption and a picture. *)
Definition painter : Gemini.Service :=
  fun _ => Gemini.Responded (responseOf [caption; picture]).

(** A service whose every call throws. *)
Definition down : Gemini.Service := fun _ => Gemini.Threw.

(** A service that answers with text only. *)
Definition talker : Gemini.Service :=
  fun _ => Gemini.Responded (responseOf [caption]).

Definition uploaded : AppState :=
  exec (handleFileUpload (Some (Some photo))) initialState.

(** After one successful generation. *)
Definition designed : AppState :=
  exec (handleStyleSelect painter clock uploaded "scandi") uploaded.

(** After a generation that failed on top of it. *)
Definition failedOnce : AppState :=
  exec (handleStyleSelect down clock designed "boho") designed.

(** The render while an edit is in flight. *)
Definition editing : AppState := apply (SetStatus EDITING) designed.

(** The render while a generation or a chat turn is in flight. *)
Definition generating : AppState := apply (SetStatus GENERATING) designed.

Definition press (ai : Gemini.Service) (styleId : string) : StyleSelection :=
  {| selectionService := ai; selectionClock := clock; selectionStyle := styleId |}.

Definition trim : string -> string := fun s => s.

Definition rect (l w : Z) : DOMRect :=
  {| left := Number.ofZ l; width := Number.ofZ w |}.

End Sample.

(** ** Further definitions *)

(** [s.includes(c)] for a one-character [c]. *)
Fixpoint includes (c : ascii) (s : string) : bool :=
  match s with
  | EmptyString => false
  | String c' rest => Ascii.eqb c' c || includes c rest
  end.

(** The request [sendChatMessage] hands to the service. *)
Definition chatRequest (history : list ChatMessage.t) (newMessage : string)
    (currentImageBase64 : option string) : Gemini.Request :=
  let context :=
    match currentImageBase64 with
    | Some image =>
        if JS.truthy currentImageBase64
        then [imagePart image;
              textPart "This is the current room design we are discussing."]
        else []
    | None => []
    end in
  let historyText := JS.join JS.LF (map historyLine (JS.sliceLast 6 history)) in
  let fullPrompt :=
    historyText ++ JS.LF ++ "User: " ++ newMessage ++ JS.LF ++ "Designer:" in
  {| Gemini.requestModel := "gemini-3-pro-preview";
     Gemini.contents := (context ++ [textPart fullPrompt])%list;
     Gemini.config :=
       Some {| Gemini.systemInstruction := systemInstruction;
               Gemini.tools := [Gemini.googleSearch] |} |}.

Definition connectionFailedMessage (now : JS.Clock) : ChatMessage.t :=
  ChatMessage.make (JS.toString (now 2%nat)) model
    "I'm having trouble connecting right now. Please try again."
    (now 3%nat) None.

Definition editDoneMessage (now : JS.Clock) : ChatMessage.t :=
  ChatMessage.make (JS.toString (now 5%nat + 2)%Z) model
    "Here is the updated design based on your request." (now 6%nat) None.

(** The call is one of [editRoomImage]. *)
Definition isEditCall (call : GatewayCall) : bool :=
  match call with
  | CallEditRoomImage _ _ => true
  | _ => false
  end.

(** *** The drag state of the slider

    [isDragging] is a ref and [sliderPosition] a state cell of
    [CompareSlider].  The mouse and touch handlers sit on the container; the
    effect adds one more [mouseup] listener on the window.  A move event
    carries [containerRef.current] (its bounding rectangle at that time) and
    the [clientX] it reads: [e.clientX], or [e.touches[0].clientX]. *)
Record SliderState : Type := {
  isDragging : bool;
  sliderPosition : Number.t
}.

Inductive SliderEvent : Type :=
| MouseDown
| MouseUp
| MouseMove (current : option DOMRect) (clientX : Number.t)
| TouchStart
| TouchEnd
| TouchMove (current : option DOMRect) (clientX : Number.t)
| WindowMouseUp.

Definition sliderInitial : SliderState :=
  {| isDragging := false; sliderPosition := initialSliderPosition |}.

Definition sliderStep (st : SliderState) (ev : SliderEvent) : SliderState :=
  match ev with
  | MouseDown | TouchStart =>
      {| isDragging := true; sliderPosition := sliderPosition st |}
  | MouseUp | TouchEnd | WindowMouseUp =>
      {| isDragging := false; sliderPosition := sliderPosition st |}
  | MouseMove current clientX | TouchMove current clientX =>
      if isDragging st
      then {| isDragging := isDragging st;
              sliderPosition := handleMove current (sliderPosition st) clientX |}
      else st
  end.

Definition sliderRun (events : list SliderEvent) (st : SliderState) : SliderState :=
  fold_left sliderStep events st.

(** The move is one [handleMove] keeps within bounds: no container, or
    finite coordinates and a finite width other than zero. *)
Definition wellPlaced (ev : SliderEvent) : bool :=
  match ev with
  | MouseMove (Some rect) clientX | TouchMove (Some rect) clientX =>
      Number.isFinite clientX && Number.isFinite (left rect)
      && Number.isFinite (width rect) && negb (Number.isZero (width rect))
  | _ => true
  end.

Definition startsDrag (ev : SliderEvent) : bool :=
  match ev with
  | MouseDown | TouchStart => true
  | _ => false
  end.

(** *** Calls in flight

    An async handler runs up to its [await] when it is invoked and the rest
    when the promise settles; whatever else happens on the page in between
    reaches the store first.  [beforeAwait] and [afterAwait] cut a run at its
    gateway call. *)
Fixpoint beforeAwait (effects : list Effect) : list Effect :=
  match effects with
  | [] => []
  | Await _ :: _ => []
  | e :: rest => e :: beforeAwait rest
  end.

Fixpoint afterAwait (effects : list Effect) : list Effect :=
  match effects with
  | [] => []
  | Await _ :: rest => rest
  | _ :: rest => afterAwait rest
  end.

(** The store after the run [t] when the effects [meanwhile] were applied
    while its gateway call was pending. *)
Definition execAround (t meanwhile : list Effect) (s : AppState) : AppState :=
  exec (afterAwait t) (exec meanwhile (exec (beforeAwait t) s)).

(** The page: the store, the continuations of the gateway calls still
    pending, and the continuations of the file reads and sample fetches still
    pending. *)
Record Page : Type := {
  store : AppState;
  calls : list (list Effect);
  loads : list (list Effect)
}.

Definition initialPage : Page :=
  {| store := initialState; calls := []; loads := [] |}.

(** What can happen on the page.  The file input and the sample button are
    rendered while there is no original picture; the style buttons, the
    thumbnails (one per image of the history) and the "Start Over" button
    while there is one; the chat form always.  A handler reads the store of
    the moment it is invoked.  A pending call or load may settle at any later
    moment, in any order. *)
Inductive PageEvent : Type :=
| ChooseFile (file : option (option string))
| TrySample (sample : option (option string))
| PressStyle (ai : Gemini.Service) (now : JS.Clock) (styleId : string)
| SubmitChat (ai : Gemini.Service) (now : JS.Clock) (input : string)
| ClickThumbnail (idx : nat)
| StartOver
| CallSettles (k : nat)
| LoadCompletes (k : nat).

Definition dropNth {A : Type} (k : nat) (l : list A) : list A :=
  (firstn k l ++ skipn (S k) l)%list.

(** A handler is invoked: its effects up to the [await] reach the store and
    the rest waits for the call. *)
Definition invoke (t : list Effect) (p : Page) : Page :=
  match t with
  | [] => p
  | _ :: _ =>
      {| store := exec (beforeAwait t) (store p);
         calls := (calls p ++ [afterAwait t])%list;
         loads := loads p |}
  end.

Definition pageStep (trim : string -> string) (p : Page) (ev : PageEvent) : Page :=
  match ev with
  | ChooseFile file =>
      if JS.truthy (originalImage (store p)) then p
      else match handleFileUpload file with
           | [] => p
           | onloadend =>
               {| store := store p; calls := calls p;
                  loads := (loads p ++ [onloadend])%list |}
           end
  | TrySample sample =>
      if JS.truthy (originalImage (store p)) then p
      else {| store := store p; calls := calls p;
              loads := (loads p ++ [handleSampleImage sample])%list |}
  | PressStyle ai now styleId =>
      if JS.truthy (originalImage (store p))
      then invoke (styleButton_onClick ai now (store p) styleId) p
      else p
  | SubmitChat ai now input =>
      invoke (chatForm_onSubmit trim ai now (store p) input) p
  | ClickThumbnail idx =>
      if JS.truthy (originalImage (store p))
         && (idx <? List.length (generatedImages (store p)))%nat
      then {| store := exec (thumbnail_onClick idx) (store p);
              calls := calls p; loads := loads p |}
      else p
  | StartOver =>
      if JS.truthy (originalImage (store p))
      then {| store := exec resetButton_onClick (store p);
              calls := calls p; loads := loads p |}
      else p
  | CallSettles k =>
      match nth_error (calls p) k with
      | Some rest =>
          {| store := exec rest (store p);
             calls := dropNth k (calls p); loads := loads p |}
      | None => p
      end
  | LoadCompletes k =>
      match nth_error (loads p) k with
      | Some rest =>
          {| store := exec rest (store p);
             calls := calls p; loads := dropNth k (loads p) |}
      | None => p
      end
  end.

Definition pageRun (trim : string -> string) (events : list PageEvent) (p : Page) : Page :=
  fold_left (pageStep trim) events p.

(** The status is busy only while a gateway call is pending, every pending
    call ends by setting the status to [IDLE], and every pending load either
    does so too or leaves the status alone. *)
Definition settlesIdle (rest : list Effect) : Prop :=
  forall s, status (exec rest s) = IDLE.

Definition keepsStatus (rest : list Effect) : Prop :=
  forall s, status (exec rest s) = status s.

Definition accounted (p : Page) : Prop :=
  (status (store p) = IDLE
   \/ ((status (store p) = GENERATING \/ status (store p) = EDITING)
       /\ calls p <> []))
  /\ Forall settlesIdle (calls p)
  /\ Forall (fun rest => settlesIdle rest \/ keepsStatus rest) (loads p).

Module Demo.

Definition older : list ChatMessage.t :=
  [ ChatMessage.make "1" user "hello" 1%Z None;
    ChatMessage.make "2" model "hi" 2%Z None ].

Definition recent : list ChatMessage.t :=
  [ ChatMessage.make "3" user "a" 3%Z None;
    ChatMessage.make "4" model "b" 4%Z None;
    ChatMessage.make "5" user "c" 5%Z None;
    ChatMessage.make "6" model "d" 6%Z None;
    ChatMessage.make "7" user "e" 7%Z None;
    ChatMessage.make "8" model "f" 8%Z None ].


(** After a second generation on top of [Sample.designed]. *)
Definition twice : AppState :=
  exec (handleStyleSelect Sample.painter Sample.clock Sample.designed "boho")
    Sample.designed.

(** A response whose only image is in its second candidate. *)
Definition imageInSecondCandidate : Gemini.Response :=
  {| Gemini.candidates :=
       Some [ {| Gemini.content := Some {| Gemini.parts := Some [Sample.caption] |};
                 Gemini.groundingMetadata := None |};
              {| Gemini.content := Some {| Gemini.parts := Some [Sample.picture] |};
                 Gemini.groundingMetadata := None |} ];
     Gemini.responseText := Some "Here you are." |}.

Definition secondBest : Gemini.Service :=
  fun _ => Gemini.Responded imageInSecondCandidate.

(** An upload, a generation, then a second generation during which "Start
    Over" is pressed before the call settles. *)
Definition startOverWhilePending : list PageEvent :=
  [ ChooseFile (Some (Some Sample.photo));
    LoadCompletes 0;
    PressStyle Sample.painter Sample.clock "scandi";
    CallSettles 0;
    PressStyle Sample.painter Sample.clock "boho";
    StartOver;
    CallSettles 0 ].

Definition drag : list SliderEvent :=
  [ MouseMove (Some (Sample.rect 10 200)) (Number.ofZ 300);
    MouseDown;
    MouseMove (Some (Sample.rect 10 200)) (Number.ofZ 60);
    MouseUp;
    MouseMove (Some (Sample.rect 10 200)) (Number.ofZ 110) ].

End Demo.

(** * Properties *)

(** ** Running effects *)

Lemma exec_app (t1 t2 : list Effect) (s : AppState) :
  exec (t1 ++ t2) s = exec t2 (exec t1 s).
Proof. unfold exec. apply fold_left_app. Qed.

Lemma status_eqb_eq (a b : ProcessingStatus) : status_eqb a b = true <-> a = b.
Proof. destruct a, b; simpl; split; intro H; congruence. Qed.

Lemma status_eqb_neq (a b : ProcessingStatus) : status_eqb a b = false <-> a <> b.
Proof. destruct a, b; simpl; split; intro H; congruence. Qed.

Lemma truthy_Some (x : string) : JS.truthy (Some x) = true <-> x <> "".
Proof.
  unfold JS.truthy. destruct (String.eqb_spec x ""); simpl; split; intro H;
    congruence.
Qed.

Lemma handleStyleSelect_cases (ai : Gemini.Service) (now : JS.Clock)
    (s : AppState) (styleId : string) :
  handleStyleSelect ai now s styleId = []
  \/ exists original style,
       originalImage s = Some original
       /\ original <> ""
       /\ status s <> GENERATING
       /\ find (fun p => String.eqb (StylePreset.id p) styleId) STYLE_PRESETS = Some style
       /\ handleStyleSelect ai now s styleId = styleRun ai now s original style.
Proof.
  unfold handleStyleSelect.
  destruct (originalImage s) as [original|] eqn:Ho; [|left; reflexivity].
  destruct (JS.truthy (Some original)) eqn:Ht; cbn [negb orb]; [|left; reflexivity].
  destruct (status_eqb (status s) GENERATING) eqn:Hs; [left; reflexivity|].
  destruct (find (fun p => String.eqb (StylePreset.id p) styleId) STYLE_PRESETS)
    as [style|] eqn:Hf; [|left; reflexivity].
  right. exists original, style. repeat split.
  - apply truthy_Some. exact Ht.
  - apply status_eqb_neq. exact Hs.
Qed.

Lemma handleStyleSelect_run (ai : Gemini.Service) (now : JS.Clock)
    (s : AppState) (styleId original : string) (style : StylePreset.t) :
  originalImage s = Some original ->
  original <> "" ->
  status s <> GENERATING ->
  find (fun p => String.eqb (StylePreset.id p) styleId) STYLE_PRESETS = Some style ->
  handleStyleSelect ai now s styleId = styleRun ai now s original style.
Proof.
  intros Ho Hne Hs Hf. unfold handleStyleSelect. rewrite Ho.
  apply truthy_Some in Hne. rewrite Hne. apply status_eqb_neq in Hs. rewrite Hs.
  cbn [negb orb]. rewrite Hf. reflexivity.
Qed.

Lemma handleChatRequest_cases (ai : Gemini.Service) (now : JS.Clock)
    (s : AppState) (text : string) :
  (status s = EDITING /\ handleChatRequest ai now s text = [])
  \/ (status s <> EDITING
      /\ exists displayed,
           isEditCommand text = true
           /\ currentDisplayedImage s = Some displayed
           /\ handleChatRequest ai now s text = editRun ai now s text displayed)
  \/ (status s <> EDITING
      /\ (isEditCommand text = false \/ currentDisplayedImage s = None)
      /\ handleChatRequest ai now s text = chatRun ai now s text).
Proof.
  unfold handleChatRequest.
  destruct (status_eqb (status s) EDITING) eqn:Hs.
  - left. split; [apply status_eqb_eq; exact Hs | reflexivity].
  - apply status_eqb_neq in Hs. right.
    destruct (isEditCommand text) eqn:He.
    + destruct (currentDisplayedImage s) as [displayed|] eqn:Hd.
      * left. split; [exact Hs|]. exists displayed. repeat split.
      * right. split; [exact Hs|]. split; [right; reflexivity|].
        unfold chatRun, contextImage. rewrite Hd. reflexivity.
    + right. split; [exact Hs|]. split; [left; reflexivity|]. reflexivity.
Qed.

Lemma sendChatMessage_role (ai : Gemini.Service) (now : JS.Clock)
    (history : list ChatMessage.t) (newMessage : string)
    (image : option string) (m : ChatMessage.t) :
  sendChatMessage ai now history newMessage image = Fulfilled m ->
  ChatMessage.role m = model.
Proof.
  unfold sendChatMessage. intro H.
  destruct (ai _) as [|response]; [discriminate|].
  inversion H. reflexivity.
Qed.

Lemma status_exec_snoc (t : list Effect) (v : ProcessingStatus) (s : AppState) :
  status (exec (t ++ [SetStatus v]) s) = v.
Proof. rewrite exec_app. reflexivity. Qed.

Lemma nil_withoutEffect : withoutEffect [].
Proof. repeat split. Qed.

(** ** Submissions while a call is in flight *)

(** C1, as stated, fails on the handlers: [handleStyleSelect] only returns
    early when the status is [GENERATING], so a render whose status is
    [EDITING] lets it call the gateway and append an image; and
    [handleChatRequest] only returns early when the status is [EDITING], so a
    render whose status is [GENERATING] lets it append to the transcript and
    call the gateway. *)
Lemma busy_handlers_still_run :
  status Sample.editing = EDITING
  /\ requests (handleStyleSelect Sample.painter Sample.clock Sample.editing "scandi")
     = [ CallGenerateReimaginedRoom Sample.photo
           "Scandinavian style, minimalism, white walls, light wood floors, cozy textiles, functional furniture, bright and airy" ]
  /\ List.length
       (appendedImages
          (handleStyleSelect Sample.painter Sample.clock Sample.editing "scandi"))
     = 1%nat
  /\ status Sample.generating = GENERATING
  /\ requests (handleChatRequest Sample.talker Sample.clock Sample.generating "which lamp?")
     = [ CallSendChatMessage [] "which lamp?" (Some "data:image/png;base64,BBBB") ]
  /\ List.length
       (appendedMessages
          (handleChatRequest Sample.talker Sample.clock Sample.generating "which lamp?"))
     = 2%nat.
Proof. repeat split. Qed.

(** C1, amended: while the status is not [IDLE], a press of a style button
    and a submission of the chat form have no observable effect (the button is
    disabled and the form does not call [onSendMessage]).  Of the handlers
    themselves, [handleStyleSelect] has no effect when the status is
    [GENERATING] and [handleChatRequest] has none when it is [EDITING]. *)
Theorem busy_submissions_ignored (trim : string -> string)
    (ai : Gemini.Service) (now : JS.Clock) (s : AppState) :
  status s <> IDLE ->
  (forall styleId, withoutEffect (styleButton_onClick ai now s styleId))
  /\ (forall input, withoutEffect (chatForm_onSubmit trim ai now s input))
  /\ (status s = GENERATING ->
      forall styleId, withoutEffect (handleStyleSelect ai now s styleId))
  /\ (status s = EDITING ->
      forall text, withoutEffect (handleChatRequest ai now s text)).
Proof.
  intro Hbusy. apply status_eqb_neq in Hbusy.
  split; [|split; [|split]].
  - intro styleId. unfold styleButton_onClick. rewrite Hbusy.
    exact nil_withoutEffect.
  - intro input. unfold chatForm_onSubmit, handleSubmit. rewrite Hbusy.
    rewrite andb_false_r. exact nil_withoutEffect.
  - intros Hs styleId. unfold handleStyleSelect. rewrite Hs.
    destruct (originalImage s); [|exact nil_withoutEffect].
    rewrite orb_true_r. exact nil_withoutEffect.
  - intros Hs text. unfold handleChatRequest. rewrite Hs.
    exact nil_withoutEffect.
Qed.

Lemma busy_submissions_ignored_witness :
  status Sample.editing <> IDLE
  /\ (forall styleId,
        withoutEffect
          (styleButton_onClick Sample.painter Sample.clock Sample.editing styleId))
  /\ (forall input,
        withoutEffect
          (chatForm_onSubmit Sample.trim Sample.painter Sample.clock
             Sample.editing input))
  /\ (status Sample.editing = GENERATING ->
      forall styleId,
        withoutEffect
          (handleStyleSelect Sample.painter Sample.clock Sample.editing styleId))
  /\ (status Sample.editing = EDITING ->
      forall text,
        withoutEffect
          (handleChatRequest Sample.painter Sample.clock Sample.editing text)).
Proof.
  split.
  - discriminate.
  - apply (busy_submissions_ignored Sample.trim Sample.painter Sample.clock
             Sample.editing).
    discriminate.
Defined.

(** ** A failed edit *)




(** ** Upload and reset *)

(** Reading a chosen file stores it and clears the rest of the session. *)
Lemma upload_clears (s : AppState) (base64 : option string) :
  exec (handleFileUpload (Some base64)) s
  = {| originalImage := base64;
       generatedImages := [];
       selectedImageIndex := (-1)%Z;
       status := IDLE;
       chatMessages := [];
       errorMsg := None |}.
Proof. reflexivity. Qed.

(** The "Start Over" button clears three cells and leaves the other three. *)
Lemma reset_clears (s : AppState) :
  exec resetButton_onClick s
  = {| originalImage := None;
       generatedImages := [];
       selectedImageIndex := selectedImageIndex s;
       status := status s;
       chatMessages := [];
       errorMsg := errorMsg s |}.
Proof. reflexivity. Qed.

(** C3 at the state reached by an upload, a successful generation and a
    failed one: the upload handler clears the selection and the error, the
    "Start Over" button leaves the selected index at 0 (with no image left to
    select) and the error message in place. *)
Lemma reset_keeps_selection_and_error :
  selectedImageIndex Sample.failedOnce = 0%Z
  /\ errorMsg Sample.failedOnce = Some "Failed to generate design. Please try again."
  /\ exec (handleFileUpload (Some (Some Sample.photo))) Sample.failedOnce
     = {| originalImage := Some Sample.photo;
          generatedImages := [];
          selectedImageIndex := (-1)%Z;
          status := IDLE;
          chatMessages := [];
          errorMsg := None |}
  /\ exec resetButton_onClick Sample.failedOnce
     = {| originalImage := None;
          generatedImages := [];
          selectedImageIndex := 0%Z;
          status := IDLE;
          chatMessages := [];
          errorMsg := Some "Failed to generate design. Please try again." |}.
Proof. repeat split. Qed.

(** ** Return to idle *)

Lemma styleRun_ends_idle (ai : Gemini.Service) (now : JS.Clock) (s : AppState)
    (original : string) (style : StylePreset.t) :
  exists t, styleRun ai now s original style = (t ++ [SetStatus IDLE])%list.
Proof. unfold styleRun. eexists. rewrite app_assoc. reflexivity. Qed.

Lemma editRun_ends_idle (ai : Gemini.Service) (now : JS.Clock) (s : AppState)
    (text : string) (displayed : RoomImage.t) :
  exists t, editRun ai now s text displayed = (t ++ [SetStatus IDLE])%list.
Proof. unfold editRun. eexists. rewrite app_assoc. reflexivity. Qed.

Lemma chatRun_ends_idle (ai : Gemini.Service) (now : JS.Clock) (s : AppState)
    (text : string) :
  exists t, chatRun ai now s text = (t ++ [SetStatus IDLE])%list.
Proof. unfold chatRun. eexists. rewrite app_assoc. reflexivity. Qed.

(** C5: a run of [handleStyleSelect] or [handleChatRequest] that sets the
    status to [GENERATING] or [EDITING] leaves it [IDLE], whatever the gateway
    answered and whatever the store held meanwhile: the last effect of the run
    is the [setStatus(IDLE)] of its [finally]. *)
Theorem busy_run_ends_idle (ai : Gemini.Service) (now : JS.Clock)
    (s store : AppState) (t : list Effect) :
  controllerRun ai now s t ->
  entersBusy t = true ->
  status (exec t store) = IDLE.
Proof.
  intros Hrun Hbusy. destruct Hrun as [styleId | text].
  - destruct (handleStyleSelect_cases ai now s styleId)
      as [Hnil | [original [style [_ [_ [_ [_ Heq]]]]]]].
    + rewrite Hnil in Hbusy. discriminate.
    + rewrite Heq. destruct (styleRun_ends_idle ai now s original style) as [t' Ht'].
      rewrite Ht'. apply status_exec_snoc.
  - destruct (handleChatRequest_cases ai now s text)
      as [[_ Hnil] | [[_ [d [_ [_ Heq]]]] | [_ [_ Heq]]]].
    + rewrite Hnil in Hbusy. discriminate.
    + rewrite Heq. destruct (editRun_ends_idle ai now s text d) as [t' Ht'].
      rewrite Ht'. apply status_exec_snoc.
    + rewrite Heq. destruct (chatRun_ends_idle ai now s text) as [t' Ht'].
      rewrite Ht'. apply status_exec_snoc.
Qed.

Lemma busy_run_ends_idle_witness :
  entersBusy (handleChatRequest Sample.down Sample.clock Sample.designed "add more plants")
  = true
  /\ status
       (exec
          (handleChatRequest Sample.down Sample.clock Sample.designed "add more plants")
          Sample.designed)
     = IDLE.
Proof.
  split.
  - reflexivity.
  - apply (busy_run_ends_idle Sample.down Sample.clock Sample.designed).
    + apply RunChatRequest.
    + reflexivity.
Defined.

(** ** A failed generation *)



(** ** The user's message *)



(** ** Appending and selecting *)

Lemma selectStyle_success (sel : StyleSelection) (s : AppState) (original : string) :
  originalImage s = Some original ->
  original <> "" ->
  status s <> GENERATING ->
  generationSucceeds original sel ->
  exists img,
    selectStyle sel s
    = {| originalImage := Some original;
         generatedImages := (generatedImages s ++ [img])%list;
         selectedImageIndex := Z.of_nat (List.length (generatedImages s));
         status := IDLE;
         chatMessages := chatMessages s;
         errorMsg := None |}.
Proof.
  intros Ho Hne Hs [style [url [Hf Hok]]].
  unfold selectStyle.
  rewrite (handleStyleSelect_run _ _ s _ original style Ho Hne Hs Hf).
  unfold styleRun. rewrite Hok.
  eexists. cbn. rewrite Ho. reflexivity.
Qed.

Lemma submitChat_edit_success (ai : Gemini.Service) (now : JS.Clock)
    (s : AppState) (text : string) (displayed : RoomImage.t) (url : string) :
  status s <> EDITING ->
  isEditCommand text = true ->
  currentDisplayedImage s = Some displayed ->
  editRoomImage ai (RoomImage.url displayed) text = Fulfilled url ->
  appendsAndSelects s (submitChat ai now text s)
  /\ status (submitChat ai now text s) = IDLE.
Proof.
  intros Hs He Hd Hok.
  destruct (handleChatRequest_cases ai now s text)
    as [[Hs' _] | [[_ [d [_ [Hd' Hrun]]]] | [_ [[He' | Hd'] _]]]];
    try congruence.
  rewrite Hd in Hd'. inversion Hd'; subst d.
  unfold submitChat. rewrite Hrun. unfold editRun. rewrite Hok.
  split; [|reflexivity].
  eexists. split; reflexivity.
Qed.

Lemma selectStyles_grow (sels : list StyleSelection) :
  forall (s : AppState) (original : string),
    originalImage s = Some original ->
    original <> "" ->
    status s <> GENERATING ->
    Forall (generationSucceeds original) sels ->
    List.length (generatedImages (selectStyles sels s))
      = (List.length (generatedImages s) + List.length sels)%nat
    /\ (sels <> [] ->
        selectedImageIndex (selectStyles sels s)
          = Z.of_nat (List.length (generatedImages (selectStyles sels s)) - 1)).
Proof.
  induction sels as [|sel rest IH]; intros s original Ho Hne Hs Hall.
  - simpl. split; [lia | congruence].
  - inversion Hall as [|? ? Hsel Hrest]; subst.
    destruct (selectStyle_success sel s original Ho Hne Hs Hsel) as [img Hstep].
    change (selectStyles (sel :: rest) s) with (selectStyles rest (selectStyle sel s)).
    assert (Ho1 : originalImage (selectStyle sel s) = Some original)
      by (rewrite Hstep; reflexivity).
    assert (Hs1 : status (selectStyle sel s) <> GENERATING)
      by (rewrite Hstep; discriminate).
    assert (Hlen : List.length (generatedImages (selectStyle sel s))
                   = S (List.length (generatedImages s))).
    { rewrite Hstep. simpl. rewrite length_app. simpl. lia. }
    destruct (IH (selectStyle sel s) original Ho1 Hne Hs1 Hrest) as [IHlen IHsel].
    split.
    + rewrite IHlen, Hlen. simpl. lia.
    + intros _. destruct rest as [|sel' rest'].
      * simpl. rewrite Hstep. simpl. rewrite length_app. simpl.
        f_equal. lia.
      * apply IHsel. discriminate.
Qed.

Lemma run_appends_and_selects (ai : Gemini.Service) (now : JS.Clock)
    (s : AppState) (t : list Effect) :
  controllerRun ai now s t ->
  (appendedImages t = [] /\ generatedImages (exec t s) = generatedImages s)
  \/ ((exists img, appendedImages t = [img]) /\ appendsAndSelects s (exec t s)).
Proof.
  intros [styleId | text].
  - destruct (handleStyleSelect_cases ai now s styleId)
      as [-> | [original [style [_ [_ [_ [_ ->]]]]]]]; [left; split; reflexivity|].
    unfold styleRun.
    destruct (generateReimaginedRoom ai original (StylePreset.prompt style)).
    + right. split; eexists; [reflexivity | split; reflexivity].
    + left. split; reflexivity.
  - destruct (handleChatRequest_cases ai now s text)
      as [[_ ->] | [[_ [d [_ [_ ->]]]] | [_ [_ ->]]]]; [left; split; reflexivity | |].
    + unfold editRun. destruct (editRoomImage ai (RoomImage.url d) text).
      * right. split; eexists; [reflexivity | split; reflexivity].
      * left. split; reflexivity.
    + unfold chatRun.
      destruct (sendChatMessage ai (fun k => now (k + 2)%nat) (chatMessages s) text
                  (contextImage s)); left; split; reflexivity.
Qed.

(** What a successful generation does to the store once its call has
    settled, whatever the store holds by then: the image is appended to the
    images of the store, and the selected index is the number of images of
    the render the handler was invoked in. *)
Lemma settled_generation_selects_closure_length (ai : Gemini.Service)
    (now : JS.Clock) (s store : AppState) (styleId original url : string)
    (style : StylePreset.t) :
  originalImage s = Some original ->
  original <> "" ->
  status s <> GENERATING ->
  find (fun p => String.eqb (StylePreset.id p) styleId) STYLE_PRESETS = Some style ->
  generateReimaginedRoom ai original (StylePreset.prompt style) = Fulfilled url ->
  exists img,
    generatedImages (exec (afterAwait (handleStyleSelect ai now s styleId)) store)
    = (generatedImages store ++ [img])%list
    /\ selectedImageIndex
         (exec (afterAwait (handleStyleSelect ai now s styleId)) store)
       = Z.of_nat (List.length (generatedImages s)).
Proof.
  intros Ho Hne Hs Hf Hok.
  rewrite (handleStyleSelect_run ai now s styleId original style Ho Hne Hs Hf).
  unfold styleRun. rewrite Hok. eexists. split; reflexivity.
Qed.

(** C4 at a "Start Over" pressed while a generation is pending.  The render
    holds one image; the style "boho" is selected and, before the call
    settles, "Start Over" empties the history.  When the call settles the new
    image is appended to the empty history, at index 0, and the selected
    index is set to 1, the length the history had in the render of the
    selection: the selected index is not the index of the new entry, and no
    image is displayed. *)
Lemma start_over_during_generation :
  List.length (generatedImages Sample.designed) = 1%nat
  /\ map RoomImage.styleName
       (generatedImages
          (execAround
             (handleStyleSelect Sample.painter Sample.clock Sample.designed "boho")
             resetButton_onClick Sample.designed))
     = [ "Bohemian Chic" ]
  /\ selectedImageIndex
       (execAround
          (handleStyleSelect Sample.painter Sample.clock Sample.designed "boho")
          resetButton_onClick Sample.designed)
     = 1%Z
  /\ currentDisplayedImage
       (execAround
          (handleStyleSelect Sample.painter Sample.clock Sample.designed "boho")
          resetButton_onClick Sample.designed)
     = None
  /\ status
       (execAround
          (handleStyleSelect Sample.painter Sample.clock Sample.designed "boho")
          resetButton_onClick Sample.designed)
     = IDLE.
Proof. repeat split. Qed.

(** X23: when each handler is run to completion on the render it was
    created in, no other update coming between its effects: a successful
    style selection and a successful edit each append one image and select
    it, the selected index being the previous length of the sequence; a run
    of either handler appends at most one image, and when it appends one it
    selects it; over any sequence of successful style selections the
    sequence grows by one entry per selection and the last entry is the
    selected one. *)
Theorem new_image_is_selected :
  (forall (ai : Gemini.Service) (now : JS.Clock) (s : AppState) (t : list Effect),
      controllerRun ai now s t ->
      (appendedImages t = [] /\ generatedImages (exec t s) = generatedImages s)
      \/ ((exists img, appendedImages t = [img]) /\ appendsAndSelects s (exec t s)))
  /\
  (forall (sel : StyleSelection) (s : AppState) (original : string),
      originalImage s = Some original ->
      original <> "" ->
      status s <> GENERATING ->
      generationSucceeds original sel ->
      appendsAndSelects s (selectStyle sel s))
  /\ (forall (ai : Gemini.Service) (now : JS.Clock) (s : AppState) (text : string)
             (displayed : RoomImage.t) (url : string),
         status s <> EDITING ->
         isEditCommand text = true ->
         currentDisplayedImage s = Some displayed ->
         editRoomImage ai (RoomImage.url displayed) text = Fulfilled url ->
         appendsAndSelects s (submitChat ai now text s))
  /\ (forall (sels : list StyleSelection) (s : AppState) (original : string),
         originalImage s = Some original ->
         original <> "" ->
         status s <> GENERATING ->
         Forall (generationSucceeds original) sels ->
         List.length (generatedImages (selectStyles sels s))
           = (List.length (generatedImages s) + List.length sels)%nat
         /\ (sels <> [] ->
             selectedImageIndex (selectStyles sels s)
               = Z.of_nat (List.length (generatedImages (selectStyles sels s)) - 1))).
Proof.
  split; [|split; [|split]].
  - apply run_appends_and_selects.
  - intros sel s original Ho Hne Hs Hok.
    destruct (selectStyle_success sel s original Ho Hne Hs Hok) as [img Hstep].
    exists img. rewrite Hstep. split; reflexivity.
  - intros ai now s text displayed url Hs He Hd Hok.
    apply (submitChat_edit_success ai now s text displayed url Hs He Hd Hok).
  - intros sels s original. apply selectStyles_grow.
Qed.

Lemma Sample_generationSucceeds (styleId : string) :
  In styleId (map StylePreset.id STYLE_PRESETS) ->
  generationSucceeds Sample.photo (Sample.press Sample.painter styleId).
Proof.
  simpl. intros [<- | [<- | [<- | [<- | [<- | []]]]]];
    eexists; eexists; split; reflexivity.
Qed.

Lemma new_image_is_selected_witness :
  List.length
    (generatedImages
       (selectStyles
          [ Sample.press Sample.painter "scandi";
            Sample.press Sample.painter "boho";
            Sample.press Sample.painter "japandi" ]
          Sample.uploaded))
  = 3%nat
  /\ selectedImageIndex
       (selectStyles
          [ Sample.press Sample.painter "scandi";
            Sample.press Sample.painter "boho";
            Sample.press Sample.painter "japandi" ]
          Sample.uploaded)
     = 2%Z.
Proof.
  destruct new_image_is_selected as [_ [_ [_ Hseq]]].
  destruct (Hseq
              [ Sample.press Sample.painter "scandi";
                Sample.press Sample.painter "boho";
                Sample.press Sample.painter "japandi" ]
              Sample.uploaded Sample.photo)
    as [Hlen Hsel].
  - reflexivity.
  - discriminate.
  - discriminate.
  - repeat constructor; apply Sample_generationSucceeds; simpl; tauto.
  - split.
    + exact Hlen.
    + rewrite Hsel by discriminate. rewrite Hlen. reflexivity.
Defined.

(** ** The edit-command classification *)

Lemma toLowerAscii_canonicalize (c : ascii) :
  toLowerAscii (RegExp.canonicalize c) = toLowerAscii c.
Proof.
  destruct c as [[] [] [] [] [] [] [] []]; reflexivity.
Qed.

Lemma canonicalize_toLowerAscii (c : ascii) :
  RegExp.canonicalize (toLowerAscii c) = RegExp.canonicalize c.
Proof.
  destruct c as [[] [] [] [] [] [] [] []]; reflexivity.
Qed.

Lemma canonicalize_eq_iff (a b : ascii) :
  RegExp.canonicalize a = RegExp.canonicalize b <-> toLowerAscii a = toLowerAscii b.
Proof.
  split; intro H.
  - rewrite <- (toLowerAscii_canonicalize a), H. apply toLowerAscii_canonicalize.
  - rewrite <- (canonicalize_toLowerAscii a), H. apply canonicalize_toLowerAscii.
Qed.

Lemma append_empty_inv (a b : string) : a ++ b = "" -> a = "" /\ b = "".
Proof. destruct a; simpl; intro H; [split; [reflexivity | exact H] | discriminate]. Qed.

(** A literal alternative matches at the start of [s] exactly when [s] starts
    with an occurrence of it, letter case apart. *)
Lemma matchLiteral_spec (pattern : string) :
  forall s,
    RegExp.matchLiteral true pattern s = true
    <-> exists occurrence rest,
          s = occurrence ++ rest /\ toLowerCase occurrence = toLowerCase pattern.
Proof.
  induction pattern as [|p pattern IH]; intro s.
  - simpl. split; [|reflexivity].
    intros _. exists "", s. split; reflexivity.
  - destruct s as [|c s'].
    + simpl. split; [discriminate|].
      intros [occ [rest [Hs Hocc]]]. symmetry in Hs.
      apply append_empty_inv in Hs. destruct Hs as [-> _]. discriminate.
    + cbn [RegExp.matchLiteral]. rewrite andb_true_iff, Ascii.eqb_eq,
        canonicalize_eq_iff, IH.
      split.
      * intros [Hc [occ [rest [Hs Hocc]]]].
        exists (String c occ), rest. split.
        -- simpl. rewrite Hs. reflexivity.
        -- simpl. rewrite Hocc, Hc. reflexivity.
      * intros [occ [rest [Hs Hocc]]].
        destruct occ as [|c' occ']; [discriminate|].
        simpl in Hs, Hocc. injection Hs as -> ->. injection Hocc as Hc Hocc'.
        split; [symmetry; exact Hc|].
        exists occ', rest. split; [reflexivity | exact Hocc'].
Qed.

(** [test] succeeds exactly when the disjunction matches at the start of
    some suffix. *)
Lemma test_spec (alternatives : list string) :
  forall s,
    RegExp.test true alternatives s = true
    <-> exists before after,
          s = before ++ after /\ RegExp.matchAt true alternatives after = true.
Proof.
  induction s as [|c s' IH].
  - simpl. rewrite orb_false_r. split.
    + intro H. exists "", "". split; [reflexivity | exact H].
    + intros [before [after [Hs H]]]. symmetry in Hs.
      apply append_empty_inv in Hs. destruct Hs as [_ ->]. exact H.
  - cbn [RegExp.test]. rewrite orb_true_iff, IH. split.
    + intros [H | [before [after [Hs H]]]].
      * exists "", (String c s'). split; [reflexivity | exact H].
      * exists (String c before), after. split; [simpl; rewrite Hs; reflexivity | exact H].
    + intros [before [after [Hs H]]]. destruct before as [|c' before'].
      * left. simpl in Hs. rewrite Hs. exact H.
      * right. simpl in Hs. inversion Hs; subst.
        exists before', after. split; [reflexivity | exact H].
Qed.

Lemma test_contains (alternatives : list string) (s : string) :
  RegExp.test true alternatives s = true
  <-> exists token, In token alternatives /\ containsIgnoringCase token s.
Proof.
  rewrite test_spec. unfold RegExp.matchAt, containsIgnoringCase. split.
  - intros [before [after [Hs H]]]. apply existsb_exists in H.
    destruct H as [token [Hin Hm]]. apply matchLiteral_spec in Hm.
    destruct Hm as [occ [rest [Ha Hocc]]].
    exists token. split; [exact Hin|].
    exists before, occ, rest. split; [rewrite Hs, Ha; reflexivity | exact Hocc].
  - intros [token [Hin [before [occ [rest [Hs Hocc]]]]]].
    exists before, (occ ++ rest). split; [exact Hs|].
    apply existsb_exists. exists token. split; [exact Hin|].
    apply matchLiteral_spec. exists occ, rest. split; [reflexivity | exact Hocc].
Qed.

(** C6: a text is classified as an edit command if and only if it contains
    one of "change", "add", "remove", "make", "turn", letter case apart; a
    text that contains none of them takes the chat path of
    [handleChatRequest]. *)
Theorem isEditCommand_iff_mentions (text : string) :
  (isEditCommand text = true <-> mentionsEditToken text)
  /\ (~ mentionsEditToken text ->
      isEditCommand text = false
      /\ forall ai now s,
           status s <> EDITING ->
           handleChatRequest ai now s text = chatRun ai now s text).
Proof.
  assert (Hiff : isEditCommand text = true <-> mentionsEditToken text).
  { unfold isEditCommand, mentionsEditToken. rewrite test_contains.
    unfold editTokens. simpl. split.
    - intros [token [[<- | [<- | [<- | [<- | [<- | []]]]]] H]]; tauto.
    - intros [H | [H | [H | [H | H]]]]; eexists; (split; [|exact H]); tauto. }
  split; [exact Hiff|].
  intro Hnone.
  assert (Hfalse : isEditCommand text = false).
  { destruct (isEditCommand text); [|reflexivity].
    exfalso. apply Hnone, Hiff. reflexivity. }
  split; [exact Hfalse|].
  intros ai now s Hs.
  destruct (handleChatRequest_cases ai now s text)
    as [[Hs' _] | [[_ [d [He _]]] | [_ [_ Heq]]]]; [contradiction | congruence | exact Heq].
Qed.

Lemma isEditCommand_iff_mentions_witness :
  mentionsEditToken "Change the wall color to blue"
  /\ isEditCommand "what's a good lamp for this room?" = false.
Proof.
  split.
  - apply (isEditCommand_iff_mentions "Change the wall color to blue").
    reflexivity.
  - reflexivity.
Defined.

(** ** The image operations of the gateway *)

Lemma extractImage_None (parts : list Gemini.Part) :
  extractImage parts = None <-> Forall noInlineData parts.
Proof.
  induction parts as [|part rest IH]; simpl.
  - split; [constructor | reflexivity].
  - destruct (Gemini.inlineData part) as [d|] eqn:Hd.
    + split; [discriminate|]. intro H. inversion H as [|? ? Hp _]; subst.
      unfold noInlineData in Hp. congruence.
    + rewrite IH. split.
      * intro H. constructor; [exact Hd | exact H].
      * intro H. inversion H; assumption.
Qed.

Lemma extractImage_first (before after : list Gemini.Part) (part : Gemini.Part)
    (d : Gemini.InlineData) :
  Forall noInlineData before ->
  Gemini.inlineData part = Some d ->
  extractImage (before ++ part :: after) = Some (dataUrl d).
Proof.
  intros Hbefore Hd. induction Hbefore as [|p before Hp _ IH]; simpl.
  - rewrite Hd. reflexivity.
  - unfold noInlineData in Hp. rewrite Hp. exact IH.
Qed.

Lemma responseParts_first (response : Gemini.Response)
    (candidate : Gemini.Candidate) (others : list Gemini.Candidate)
    (content : Gemini.Content) (parts : list Gemini.Part) :
  Gemini.candidates response = Some (candidate :: others) ->
  Gemini.content candidate = Some content ->
  Gemini.parts content = Some parts ->
  responseParts response = parts.
Proof. intros Hc Hct Hp. unfold responseParts. rewrite Hc, Hct, Hp. reflexivity. Qed.

(** No part of the first candidate carries inline data (also when there is
    no candidate, or the first has no content or no parts). *)
Lemma responseParts_without_image (response : Gemini.Response) :
  Forall noInlineData (responseParts response)
  <-> (forall candidate others content parts,
         Gemini.candidates response = Some (candidate :: others) ->
         Gemini.content candidate = Some content ->
         Gemini.parts content = Some parts ->
         Forall (fun p => Gemini.inlineData p = None) parts).
Proof.
  split.
  - intros H candidate others content parts Hc Hct Hp.
    rewrite (responseParts_first response candidate others content parts Hc Hct Hp)
      in H.
    exact H.
  - intro H. unfold responseParts.
    destruct (Gemini.candidates response) as [[|candidate others]|] eqn:Hc;
      try constructor.
    destruct (Gemini.content candidate) as [content|] eqn:Hct; [|constructor].
    destruct (Gemini.parts content) as [parts|] eqn:Hp; [|constructor].
    exact (H candidate others content parts eq_refl Hct Hp).
Qed.

Lemma dataUrl_explicit (d : Gemini.InlineData) :
  exists mime payload,
    dataUrl d = "data:" ++ mime ++ ";base64," ++ payload
    /\ (forall m, Gemini.mimeType d = Some m -> m <> "" -> mime = m)
    /\ (Gemini.mimeType d = None \/ Gemini.mimeType d = Some "" ->
        mime = "image/jpeg")
    /\ (forall p, Gemini.data d = Some p -> payload = p)
    /\ (Gemini.data d = None -> payload = "undefined").
Proof.
  exists (JS.orElse (Gemini.mimeType d) "image/jpeg"), (interpolate (Gemini.data d)).
  split; [reflexivity|]. split; [|split; [|split]].
  - intros m Hm Hne. rewrite Hm. unfold JS.orElse.
    rewrite (proj2 (truthy_Some m) Hne). reflexivity.
  - intros [Hm | Hm]; rewrite Hm; reflexivity.
  - intros p Hp. rewrite Hp. reflexivity.
  - intro Hp. rewrite Hp. reflexivity.
Qed.

(** C8, as stated, fails: a response whose first candidate holds only text
    and whose second candidate holds an inline image does contain an inline
    image part, and both operations fail on it with their "no image" error:
    they read the parts of the first candidate only. *)
Lemma image_in_later_candidate_rejected :
  (exists candidate content parts part d,
      Gemini.candidates Demo.imageInSecondCandidate
      = Some [ {| Gemini.content := Some {| Gemini.parts := Some [Sample.caption] |};
                  Gemini.groundingMetadata := None |};
               candidate ]
      /\ Gemini.content candidate = Some content
      /\ Gemini.parts content = Some parts
      /\ In part parts
      /\ Gemini.inlineData part = Some d)
  /\ Demo.secondBest (regenerateRequest Sample.photo "Japandi style")
     = Gemini.Responded Demo.imageInSecondCandidate
  /\ generateReimaginedRoom Demo.secondBest Sample.photo "Japandi style"
     = Rejected (ErrorMessage "No image generated.")
  /\ editRoomImage Demo.secondBest Sample.photo "add a lamp"
     = Rejected (ErrorMessage "No edited image generated.").
Proof.
  split; [|repeat split].
  eexists. eexists. eexists. eexists. eexists.
  split; [reflexivity|]. split; [reflexivity|]. split; [reflexivity|].
  split; [left; reflexivity | reflexivity].
Qed.

(** C8, amended: when the service answers, Regenerate and Edit each return
    the data URL "data:<mime>;base64,<payload>" built from the first part
    that carries inline data among the parts of the first candidate of the
    response: the MIME type is the part's, or "image/jpeg" when it has none
    or an empty one, and the payload is the part's data (the text
    "undefined" when it has none).  They fail, each with its "no image"
    error, exactly when no part of the first candidate carries inline data,
    which includes a response without candidates and a first candidate
    without content or parts. *)
Theorem image_operations_first_candidate (ai : Gemini.Service)
    (imageBase64 argument : string) (response : Gemini.Response) :
  (ai (regenerateRequest imageBase64 argument) = Gemini.Responded response ->
   (forall candidate others content before part d after,
       Gemini.candidates response = Some (candidate :: others) ->
       Gemini.content candidate = Some content ->
       Gemini.parts content = Some (before ++ part :: after)%list ->
       Forall (fun p => Gemini.inlineData p = None) before ->
       Gemini.inlineData part = Some d ->
       exists mime payload,
         generateReimaginedRoom ai imageBase64 argument
         = Fulfilled ("data:" ++ mime ++ ";base64," ++ payload)
         /\ (forall m, Gemini.mimeType d = Some m -> m <> "" -> mime = m)
         /\ (Gemini.mimeType d = None \/ Gemini.mimeType d = Some "" ->
             mime = "image/jpeg")
         /\ (forall p, Gemini.data d = Some p -> payload = p)
         /\ (Gemini.data d = None -> payload = "undefined"))
   /\ ((exists e, generateReimaginedRoom ai imageBase64 argument = Rejected e)
       <-> (forall candidate others content parts,
              Gemini.candidates response = Some (candidate :: others) ->
              Gemini.content candidate = Some content ->
              Gemini.parts content = Some parts ->
              Forall (fun p => Gemini.inlineData p = None) parts))
   /\ (forall e,
         generateReimaginedRoom ai imageBase64 argument = Rejected e ->
         e = ErrorMessage "No image generated."))
  /\ (ai (editRequest imageBase64 argument) = Gemini.Responded response ->
      (forall candidate others content before part d after,
          Gemini.candidates response = Some (candidate :: others) ->
          Gemini.content candidate = Some content ->
          Gemini.parts content = Some (before ++ part :: after)%list ->
          Forall (fun p => Gemini.inlineData p = None) before ->
          Gemini.inlineData part = Some d ->
          exists mime payload,
            editRoomImage ai imageBase64 argument
            = Fulfilled ("data:" ++ mime ++ ";base64," ++ payload)
            /\ (forall m, Gemini.mimeType d = Some m -> m <> "" -> mime = m)
            /\ (Gemini.mimeType d = None \/ Gemini.mimeType d = Some "" ->
                mime = "image/jpeg")
            /\ (forall p, Gemini.data d = Some p -> payload = p)
            /\ (Gemini.data d = None -> payload = "undefined"))
      /\ ((exists e, editRoomImage ai imageBase64 argument = Rejected e)
          <-> (forall candidate others content parts,
                 Gemini.candidates response = Some (candidate :: others) ->
                 Gemini.content candidate = Some content ->
                 Gemini.parts content = Some parts ->
                 Forall (fun p => Gemini.inlineData p = None) parts))
      /\ (forall e,
            editRoomImage ai imageBase64 argument = Rejected e ->
            e = ErrorMessage "No edited image generated.")).
Proof.
  split; intro Hreply.
  - unfold generateReimaginedRoom. rewrite Hreply. split; [|split].
    + intros candidate others content before part d after Hc Hct Hp Hbefore Hd.
      rewrite (responseParts_first response candidate others content _ Hc Hct Hp).
      rewrite (extractImage_first before after part d Hbefore Hd).
      destruct (dataUrl_explicit d) as [mime [payload [Hurl Hrest]]].
      exists mime, payload. rewrite Hurl. split; [reflexivity | exact Hrest].
    + rewrite <- responseParts_without_image, <- extractImage_None.
      destruct (extractImage (responseParts response)); split.
      * intros [e He]. discriminate.
      * discriminate.
      * reflexivity.
      * intros _. eexists. reflexivity.
    + intros e. destruct (extractImage (responseParts response)); intro He;
        [discriminate | congruence].
  - unfold editRoomImage. rewrite Hreply. split; [|split].
    + intros candidate others content before part d after Hc Hct Hp Hbefore Hd.
      rewrite (responseParts_first response candidate others content _ Hc Hct Hp).
      rewrite (extractImage_first before after part d Hbefore Hd).
      destruct (dataUrl_explicit d) as [mime [payload [Hurl Hrest]]].
      exists mime, payload. rewrite Hurl. split; [reflexivity | exact Hrest].
    + rewrite <- responseParts_without_image, <- extractImage_None.
      destruct (extractImage (responseParts response)); split.
      * intros [e He]. discriminate.
      * discriminate.
      * reflexivity.
      * intros _. eexists. reflexivity.
    + intros e. destruct (extractImage (responseParts response)); intro He;
        [discriminate | congruence].
Qed.

Lemma image_operations_first_candidate_witness :
  generateReimaginedRoom Sample.painter Sample.photo "Japandi style"
  = Fulfilled "data:image/png;base64,BBBB"
  /\ (exists e, editRoomImage Sample.talker Sample.photo "add a lamp" = Rejected e).
Proof.
  split.
  - destruct (image_operations_first_candidate Sample.painter Sample.photo
                "Japandi style"
                (Sample.responseOf [Sample.caption; Sample.picture]))
      as [Hgen _].
    destruct (Hgen eq_refl) as [Hfirst _].
    destruct (Hfirst
                {| Gemini.content :=
                     Some {| Gemini.parts := Some [Sample.caption; Sample.picture] |};
                   Gemini.groundingMetadata := None |}
                []
                {| Gemini.parts := Some [Sample.caption; Sample.picture] |}
                [Sample.caption] Sample.picture
                {| Gemini.mimeType := Some "image/png"; Gemini.data := Some "BBBB" |}
                [] eq_refl eq_refl eq_refl)
      as [mime [payload [Heq [Hmime [_ [Hpayload _]]]]]].
    + repeat constructor.
    + reflexivity.
    + rewrite Heq.
      rewrite (Hmime "image/png" eq_refl ltac:(discriminate)).
      rewrite (Hpayload "BBBB" eq_refl). reflexivity.
  - destruct (image_operations_first_candidate Sample.talker Sample.photo
                "add a lamp" (Sample.responseOf [Sample.caption]))
      as [_ Hedit].
    destruct (Hedit eq_refl) as [_ [Hnone _]].
    apply Hnone. intros candidate others content parts Hc Hct Hp.
    injection Hc as <- _. injection Hct as <-. injection Hp as <-.
    repeat constructor.
Defined.

(** ** The compare slider *)

Section Rounding.

Variables prec emax : Z.

Lemma iter_pos_invariant {A : Type} (P : A -> Prop) (f : A -> A) :
  (forall x, P x -> P (f x)) ->
  forall n x, P x -> P (iter_pos f n x).
Proof.
  intro Hf. induction n as [n IH | n IH |]; intros x Hx; simpl.
  - apply IH, IH, Hf, Hx.
  - apply IH, IH, Hx.
  - apply Hf, Hx.
Qed.

Lemma shr_1_nonneg (mrs : shr_record) :
  (0 <= shr_m mrs)%Z -> (0 <= shr_m (shr_1 mrs))%Z.
Proof.
  destruct mrs as [m r s]. simpl.
  destruct m as [|p|p]; [| destruct p | destruct p]; simpl; lia.
Qed.

Lemma shr_nonneg (mrs : shr_record) (e n : Z) :
  (0 <= shr_m mrs)%Z -> (0 <= shr_m (fst (shr mrs e n)))%Z.
Proof.
  intro H. unfold shr. destruct n as [|p|p]; simpl; try exact H.
  apply (iter_pos_invariant (fun x => (0 <= shr_m x)%Z)); [apply shr_1_nonneg | exact H].
Qed.

Lemma shr_fexp_nonneg (m e : Z) (l : location) :
  (0 <= m)%Z -> (0 <= shr_m (fst (shr_fexp prec emax m e l)))%Z.
Proof.
  intro H. unfold shr_fexp. apply shr_nonneg.
  destruct l as [|[]]; simpl; exact H.
Qed.

Lemma round_nearest_even_nonneg (m : Z) (l : location) :
  (0 <= m)%Z -> (0 <= round_nearest_even m l)%Z.
Proof.
  intro H. destruct l as [|[]]; simpl; try destruct (Z.even m); lia.
Qed.

(** Rounding a non-negative mantissa never produces [NaN]. *)
Lemma binary_round_aux_isNaN (s : bool) (m e : Z) (l : location) :
  (0 <= m)%Z -> Number.isNaN (binary_round_aux prec emax s m e l) = false.
Proof.
  intro H. unfold binary_round_aux.
  pose proof (shr_fexp_nonneg m e l H) as H1.
  destruct (shr_fexp prec emax m e l) as [mrs' e']. simpl in H1.
  pose proof (shr_fexp_nonneg
                (round_nearest_even (shr_m mrs') (loc_of_shr_record mrs')) e'
                loc_Exact (round_nearest_even_nonneg _ _ H1)) as H2.
  destruct (shr_fexp prec emax _ e' loc_Exact) as [mrs'' e'']. simpl in H2.
  destruct (shr_m mrs'') as [|p|p]; [reflexivity | | lia].
  destruct (Z.leb e'' (emax - prec)); reflexivity.
Qed.

Lemma binary_normalize_isNaN (m e : Z) (szero : bool) :
  Number.isNaN (binary_normalize prec emax m e szero) = false.
Proof.
  unfold binary_normalize, binary_round.
  destruct m as [|p|p]; [reflexivity | |];
    destruct (shl_align p e _) as [mz ez]; apply binary_round_aux_isNaN; lia.
Qed.

Lemma SFsub_isNaN (a b : spec_float) :
  Number.isFinite a = true ->
  Number.isFinite b = true ->
  Number.isNaN (SFsub prec emax a b) = false.
Proof.
  destruct a as [sa | sa | | sa ma ea], b as [sb | sb | | sb mb eb];
    simpl; try discriminate; intros _ _; try reflexivity.
  - destruct sa, sb; reflexivity.
  - apply binary_normalize_isNaN.
Qed.

Lemma SFdiv_isNaN (x : spec_float) (s : bool) (m : positive) (e : Z) :
  Number.isNaN x = false ->
  Number.isNaN (SFdiv prec emax x (S754_finite s m e)) = false.
Proof.
  destruct x as [sx | sx | | sx mx ex]; simpl; try discriminate; intros _;
    try reflexivity.
  unfold SFdiv_core_binary.
  set (d := Z.sub (Z.sub ex e) _).
  set (m' := match d with Z0 => Zpos mx | Zpos _ => Z.shiftl (Zpos mx) d | Zneg _ => 0%Z end).
  assert (Hm' : (0 <= m')%Z).
  { unfold m'. destruct d; [lia | apply Z.shiftl_nonneg; lia | lia]. }
  pose proof (Z.div_pos m' (Zpos m) Hm' (eq_refl : (0 < Zpos m)%Z)) as Hq.
  unfold Z.div in Hq.
  destruct (Z.div_eucl m' (Zpos m)) as [q r]. simpl in Hq.
  apply binary_round_aux_isNaN. exact Hq.
Qed.

Lemma SFmul_isNaN (x : spec_float) (s : bool) (m : positive) (e : Z) :
  Number.isNaN x = false ->
  Number.isNaN (SFmul prec emax x (S754_finite s m e)) = false.
Proof.
  destruct x as [sx | sx | | sx mx ex]; simpl; try discriminate; intros _;
    try reflexivity.
  apply binary_round_aux_isNaN. lia.
Qed.

End Rounding.

Lemma SFcompare_isNaN (a b : spec_float) :
  Number.isNaN a = false ->
  Number.isNaN b = false ->
  exists c, SFcompare a b = Some c.
Proof.
  destruct a, b; simpl; try discriminate; intros _ _; eexists; reflexivity.
Qed.

Lemma SFcompare_refl (a : spec_float) :
  Number.isNaN a = false -> SFcompare a a = Some Eq.
Proof.
  destruct a as [s | s | | s m e]; simpl; try discriminate; intros _.
  - reflexivity.
  - destruct s; reflexivity.
  - rewrite Z.compare_refl, Pos.compare_cont_refl. destruct s; reflexivity.
Qed.

Lemma SFleb_refl (a : spec_float) :
  Number.isNaN a = false -> SFleb a a = true.
Proof. intro H. unfold SFleb. rewrite (SFcompare_refl a H). reflexivity. Qed.

Lemma SFleb_isNaN_l (a b : spec_float) : SFleb a b = true -> Number.isNaN a = false.
Proof. destruct a; try reflexivity. discriminate. Qed.

Lemma min_cases (a b : spec_float) :
  Number.isNaN a = false ->
  Number.isNaN b = false ->
  (Number.min a b = a /\ SFleb a b = true) \/ Number.min a b = b.
Proof.
  intros Ha Hb. destruct (SFcompare_isNaN a b Ha Hb) as [c Hc].
  unfold Number.min, SFleb. rewrite Hc. destruct c.
  - destruct a as [[] | | |], b as [[] | | |]; auto.
  - left. split; reflexivity.
  - right. reflexivity.
Qed.

Lemma max_cases (a b : spec_float) :
  Number.isNaN a = false ->
  Number.isNaN b = false ->
  Number.max a b = a \/ (Number.max a b = b /\ SFleb a b = true).
Proof.
  intros Ha Hb. destruct (SFcompare_isNaN a b Ha Hb) as [c Hc].
  unfold Number.max, SFleb. rewrite Hc. destruct c.
  - destruct a as [[] | | |], b as [[] | | |]; auto.
  - right. split; reflexivity.
  - left. reflexivity.
Qed.

Lemma min_isNaN (a b : spec_float) :
  Number.isNaN a = false ->
  Number.isNaN b = false ->
  Number.isNaN (Number.min a b) = false.
Proof.
  intros Ha Hb. destruct (min_cases a b Ha Hb) as [[-> _] | ->]; assumption.
Qed.

Lemma max_isNaN (a b : spec_float) :
  Number.isNaN a = false ->
  Number.isNaN b = false ->
  Number.isNaN (Number.max a b) = false.
Proof.
  intros Ha Hb. destruct (max_cases a b Ha Hb) as [-> | [-> _]]; assumption.
Qed.

Lemma min_le_r (a b : spec_float) :
  Number.isNaN a = false ->
  Number.isNaN b = false ->
  SFleb (Number.min a b) b = true.
Proof.
  intros Ha Hb. destruct (min_cases a b Ha Hb) as [[-> H] | ->];
    [exact H | apply SFleb_refl, Hb].
Qed.

Lemma max_ge_l (a b : spec_float) :
  Number.isNaN a = false ->
  Number.isNaN b = false ->
  SFleb a (Number.max a b) = true.
Proof.
  intros Ha Hb. destruct (max_cases a b Ha Hb) as [-> | [-> H]];
    [apply SFleb_refl, Ha | exact H].
Qed.

Lemma max_le (a b c : spec_float) :
  SFleb a c = true -> SFleb b c = true -> SFleb (Number.max a b) c = true.
Proof.
  intros Ha Hb.
  destruct (max_cases a b (SFleb_isNaN_l a c Ha) (SFleb_isNaN_l b c Hb))
    as [-> | [-> _]]; assumption.
Qed.

(** The clamp [Math.max(0, Math.min(v, 100))] of a number is a percentage. *)
Lemma clamp_isPercentage (v : spec_float) :
  Number.isNaN v = false ->
  Number.isPercentage
    (Number.max (Number.ofZ 0) (Number.min v (Number.ofZ 100))) = true.
Proof.
  intro Hv. unfold Number.isPercentage. apply andb_true_iff. split.
  - apply max_ge_l; [reflexivity | apply min_isNaN; [exact Hv | reflexivity]].
  - apply max_le; [reflexivity | apply min_le_r; [exact Hv | reflexivity]].
Qed.

(** And the clamp of [NaN] is [NaN]. *)
Lemma clamp_NaN :
  Number.max (Number.ofZ 0) (Number.min S754_nan (Number.ofZ 100)) = S754_nan.
Proof. reflexivity. Qed.

(** C9, as stated, fails: for a bounding rectangle of width zero the quotient
    is [0 / 0], and the clamp of [NaN] is [NaN], which is no percentage. *)
Lemma zero_width_gives_NaN :
  handleMove (Some (Sample.rect 0 0)) initialSliderPosition (Number.ofZ 10)
  = S754_nan
  /\ Number.isPercentage
       (handleMove (Some (Sample.rect 0 0)) initialSliderPosition (Number.ofZ 10))
     = false.
Proof. split; reflexivity. Qed.

(** C9, amended: for every finite pointer x-coordinate and every bounding
    rectangle whose left edge is finite and whose width is finite and not
    zero, the slider position computed by [handleMove] lies between 0 and 100
    inclusive. *)
Theorem handleMove_isPercentage (rect : DOMRect)
    (sliderPosition clientX : Number.t) :
  Number.isFinite clientX = true ->
  Number.isFinite (left rect) = true ->
  Number.isFinite (width rect) = true ->
  Number.isZero (width rect) = false ->
  Number.isPercentage (handleMove (Some rect) sliderPosition clientX) = true.
Proof.
  intros Hx Hl Hw Hz. unfold handleMove.
  apply clamp_isPercentage.
  destruct (width rect) as [sw | sw | | sw mw ew] eqn:Ew; try discriminate.
  change (Number.ofZ 100) with (S754_finite false 7036874417766400 (-46)).
  apply SFmul_isNaN, SFdiv_isNaN, max_isNaN; [reflexivity|].
  apply min_isNaN; [|reflexivity].
  apply SFsub_isNaN; assumption.
Qed.

Lemma handleMove_isPercentage_witness :
  handleMove (Some (Sample.rect 10 200)) initialSliderPosition (Number.ofZ 60)
  = Number.ofZ 25
  /\ Number.isPercentage
       (handleMove (Some (Sample.rect 10 200)) initialSliderPosition (Number.ofZ 60))
     = true.
Proof.
  split.
  - reflexivity.
  - apply (handleMove_isPercentage (Sample.rect 10 200)); reflexivity.
Defined.

(** * Further properties of the code *)

(** ** Starting a session over *)

(** X1: reading a chosen file and loading the sample picture reset the
    session in the same way, whatever it held: the picture is stored, the
    history and the transcript are emptied, nothing is selected or displayed,
    the status is [IDLE] and the error is cleared.  An upload without a file
    changes nothing, and a sample that could not be fetched only sets the
    error message. *)
Theorem upload_resets_session (s : AppState) (base64 : option string) :
  exec (handleFileUpload (Some base64)) s
  = {| originalImage := base64;
       generatedImages := [];
       selectedImageIndex := (-1)%Z;
       status := IDLE;
       chatMessages := [];
       errorMsg := None |}
  /\ exec (handleSampleImage (Some base64)) s = exec (handleFileUpload (Some base64)) s
  /\ currentDisplayedImage (exec (handleFileUpload (Some base64)) s) = None
  /\ exec (handleFileUpload None) s = s
  /\ exec (handleSampleImage None) s
     = {| originalImage := originalImage s;
          generatedImages := generatedImages s;
          selectedImageIndex := selectedImageIndex s;
          status := status s;
          chatMessages := chatMessages s;
          errorMsg := Some "Could not load sample image. Please upload one instead." |}.
Proof. repeat split. Qed.

Lemma nth_error_nil_None {A : Type} (n : nat) : nth_error (@nil A) n = None.
Proof. destruct n; reflexivity. Qed.

Lemma currentDisplayedImage_None_iff (s : AppState) :
  currentDisplayedImage s = None
  <-> (selectedImageIndex s < 0)%Z
      \/ (Z.of_nat (List.length (generatedImages s)) <= selectedImageIndex s)%Z.
Proof.
  unfold currentDisplayedImage.
  destruct (Z.leb_spec 0 (selectedImageIndex s)) as [Hpos | Hneg].
  - rewrite nth_error_None. split.
    + intro H. right. lia.
    + intros [H | H]; lia.
  - split; [intros _; left; exact Hneg | reflexivity].
Qed.

(** Without a displayed image a chat submission never reaches the edit
    operation. *)
Lemma no_display_no_edit (ai : Gemini.Service) (now : JS.Clock) (s : AppState)
    (text : string) :
  currentDisplayedImage s = None ->
  existsb isEditCall (requests (handleChatRequest ai now s text)) = false
  /\ appendedImages (handleChatRequest ai now s text) = []
  /\ (status s <> EDITING ->
      handleChatRequest ai now s text = chatRun ai now s text).
Proof.
  intro Hnone.
  destruct (handleChatRequest_cases ai now s text)
    as [[Hs ->] | [[_ [d [_ [Hd _]]]] | [Hs [_ ->]]]].
  - repeat split. intro H. contradiction.
  - congruence.
  - unfold chatRun.
    destruct (sendChatMessage ai (fun k => now (k + 2)%nat) (chatMessages s) text
                (contextImage s)); repeat split.
Qed.

(** X2: after "Start Over" no image is displayed even though the selected
    index is left as it was, no context image is left, a chat submission
    never calls the edit operation nor appends an image, whatever its text,
    and a style selection does nothing until a picture is loaded again. *)
Theorem reset_hides_images (s : AppState) :
  currentDisplayedImage (exec resetButton_onClick s) = None
  /\ contextImage (exec resetButton_onClick s) = None
  /\ (forall ai now text,
        existsb isEditCall
          (requests (handleChatRequest ai now (exec resetButton_onClick s) text))
        = false
        /\ appendedImages (handleChatRequest ai now (exec resetButton_onClick s) text)
           = [])
  /\ (forall ai now styleId,
        handleStyleSelect ai now (exec resetButton_onClick s) styleId = []).
Proof.
  assert (Hnone : currentDisplayedImage (exec resetButton_onClick s) = None).
  { unfold currentDisplayedImage. cbn.
    destruct (0 <=? selectedImageIndex s)%Z; [apply nth_error_nil_None | reflexivity]. }
  split; [exact Hnone|]. split; [|split].
  - unfold contextImage. rewrite Hnone. reflexivity.
  - intros ai now text.
    destruct (no_display_no_edit ai now (exec resetButton_onClick s) text Hnone)
      as [H1 [H2 _]].
    split; assumption.
  - intros ai now styleId. reflexivity.
Qed.

(** X3: while the selected index is negative or past the end of the history
    (no generation yet, for one), every chat submission takes the chat path,
    also one that reads as an edit command: the edit operation is not called
    and no image is appended. *)
Theorem edit_needs_displayed_image (ai : Gemini.Service) (now : JS.Clock)
    (s : AppState) (text : string) :
  (selectedImageIndex s < 0)%Z
  \/ (Z.of_nat (List.length (generatedImages s)) <= selectedImageIndex s)%Z ->
  existsb isEditCall (requests (handleChatRequest ai now s text)) = false
  /\ appendedImages (handleChatRequest ai now s text) = []
  /\ (status s <> EDITING ->
      requests (handleChatRequest ai now s text)
      = [ CallSendChatMessage (chatMessages s) text (contextImage s) ]).
Proof.
  intro Hrange. apply currentDisplayedImage_None_iff in Hrange.
  destruct (no_display_no_edit ai now s text Hrange) as [H1 [H2 H3]].
  split; [exact H1|]. split; [exact H2|].
  intro Hs. rewrite (H3 Hs). unfold chatRun.
  destruct (sendChatMessage ai (fun k => now (k + 2)%nat) (chatMessages s) text
              (contextImage s)); reflexivity.
Qed.

Lemma edit_needs_displayed_image_witness :
  existsb isEditCall
    (requests (handleChatRequest Sample.painter Sample.clock Sample.uploaded
                 "make the walls sage green"))
  = false
  /\ appendedImages
       (handleChatRequest Sample.painter Sample.clock Sample.uploaded
          "make the walls sage green")
     = [].
Proof.
  destruct (edit_needs_displayed_image Sample.painter Sample.clock Sample.uploaded
              "make the walls sage green")
    as [H1 [H2 _]].
  - left. reflexivity.
  - split; [exact H1 | exact H2].
Defined.

(** ** Style selection *)

Lemma styleRun_not_nil (ai : Gemini.Service) (now : JS.Clock) (s : AppState)
    (original : string) (style : StylePreset.t) :
  styleRun ai now s original style <> [].
Proof. unfold styleRun. discriminate. Qed.

(** X4: [handleStyleSelect] does nothing at all exactly when there is no
    original picture (or an empty one), or the status is [GENERATING], or no
    preset carries the given id; in every other case it is a run that calls
    the gateway. *)
Theorem handleStyleSelect_nil_iff (ai : Gemini.Service) (now : JS.Clock)
    (s : AppState) (styleId : string) :
  handleStyleSelect ai now s styleId = []
  <-> JS.truthy (originalImage s) = false
      \/ status s = GENERATING
      \/ (forall p, In p STYLE_PRESETS -> StylePreset.id p <> styleId).
Proof.
  split.
  - intro Hnil.
    destruct (originalImage s) as [original|] eqn:Ho; [|left; reflexivity].
    destruct (JS.truthy (Some original)) eqn:Ht; [|left; reflexivity].
    right.
    destruct (status_eqb (status s) GENERATING) eqn:Hs;
      [left; apply status_eqb_eq; exact Hs|].
    right. intros p Hin Hid.
    destruct (find (fun q => String.eqb (StylePreset.id q) styleId) STYLE_PRESETS)
      as [style|] eqn:Hf.
    + apply truthy_Some in Ht. apply status_eqb_neq in Hs.
      rewrite (handleStyleSelect_run ai now s styleId original style Ho Ht Hs Hf)
        in Hnil.
      exact (styleRun_not_nil _ _ _ _ _ Hnil).
    + pose proof (find_none _ _ Hf p Hin) as Hp. cbn beta in Hp.
      apply String.eqb_neq in Hp. contradiction.
  - intros [Ht | [Hs | Hunknown]].
    + unfold handleStyleSelect. destruct (originalImage s); [|reflexivity].
      rewrite Ht. reflexivity.
    + unfold handleStyleSelect. destruct (originalImage s); [|reflexivity].
      rewrite Hs, orb_true_r. reflexivity.
    + destruct (handleStyleSelect_cases ai now s styleId)
        as [Hnil | [original [style [_ [_ [_ [Hf _]]]]]]]; [exact Hnil|].
      apply find_some in Hf. destruct Hf as [Hin Hid].
      apply String.eqb_eq in Hid. exfalso. exact (Hunknown style Hin Hid).
Qed.

Lemma find_preset (p : StylePreset.t) :
  In p STYLE_PRESETS ->
  find (fun q => String.eqb (StylePreset.id q) (StylePreset.id p)) STYLE_PRESETS
  = Some p.
Proof.
  simpl. intros [<- | [<- | [<- | [<- | [<- | []]]]]]; reflexivity.
Qed.

(** X5: for every preset of the table, pressing it with a picture loaded and
    no generation in flight calls Regenerate once, on the original picture
    (never on a generated one) and with that preset's prompt; when the call
    succeeds the one image appended carries the returned URL, the preset's
    name as its style name and "Reimagined in <name> style" as its
    description. *)
Theorem style_regenerates_from_original (ai : Gemini.Service) (now : JS.Clock)
    (s : AppState) (p : StylePreset.t) (original : string) :
  In p STYLE_PRESETS ->
  originalImage s = Some original ->
  original <> "" ->
  status s <> GENERATING ->
  requests (handleStyleSelect ai now s (StylePreset.id p))
  = [ CallGenerateReimaginedRoom original (StylePreset.prompt p) ]
  /\ (forall url,
        generateReimaginedRoom ai original (StylePreset.prompt p) = Fulfilled url ->
        appendedImages (handleStyleSelect ai now s (StylePreset.id p))
        = [ RoomImage.make (JS.toString (now 0%nat)) url (StylePreset.name p)
              (Some ("Reimagined in " ++ StylePreset.name p ++ " style")) ]).
Proof.
  intros Hin Ho Hne Hs.
  rewrite (handleStyleSelect_run ai now s _ original p Ho Hne Hs (find_preset p Hin)).
  unfold styleRun. split.
  - destruct (generateReimaginedRoom ai original (StylePreset.prompt p)); reflexivity.
  - intros url Hok. rewrite Hok. reflexivity.
Qed.

Lemma style_regenerates_from_original_witness :
  requests (handleStyleSelect Sample.painter Sample.clock Sample.designed "japandi")
  = [ CallGenerateReimaginedRoom Sample.photo
        "Japandi style, blend of Japanese rustic minimalism and Scandinavian functionality, clean lines, bright spaces, natural materials" ].
Proof.
  destruct (style_regenerates_from_original Sample.painter Sample.clock
              Sample.designed
              (StylePreset.make "japandi" "Japandi"
                 "Japandi style, blend of Japanese rustic minimalism and Scandinavian functionality, clean lines, bright spaces, natural materials"
                 "bg-green-50")
              Sample.photo)
    as [Hreq _].
  - simpl. tauto.
  - reflexivity.
  - discriminate.
  - discriminate.
  - exact Hreq.
Defined.

(** ** What is displayed *)

Lemma nth_error_snoc {A : Type} (l : list A) (x : A) :
  nth_error (l ++ [x]) (List.length l) = Some x.
Proof. induction l as [|y l IH]; [reflexivity | exact IH]. Qed.

Lemma appendsAndSelects_displays (s s' : AppState) (img : RoomImage.t) :
  generatedImages s' = (generatedImages s ++ [img])%list ->
  selectedImageIndex s' = Z.of_nat (List.length (generatedImages s)) ->
  currentDisplayedImage s' = Some img.
Proof.
  intros Hg Hi. unfold currentDisplayedImage. rewrite Hi, Hg.
  destruct (Z.leb_spec 0 (Z.of_nat (List.length (generatedImages s)))); [|lia].
  rewrite Nat2Z.id. apply nth_error_snoc.
Qed.

(** X6: after a successful style selection, and after a successful edit, the
    displayed image is the image that run appended: the compare view shows
    the newest design, and the next edit command works on it. *)
Theorem new_image_is_displayed :
  (forall (sel : StyleSelection) (s : AppState) (original : string),
      originalImage s = Some original ->
      original <> "" ->
      status s <> GENERATING ->
      generationSucceeds original sel ->
      exists img,
        appendedImages
          (handleStyleSelect (selectionService sel) (selectionClock sel) s
             (selectionStyle sel))
        = [img]
        /\ currentDisplayedImage (selectStyle sel s) = Some img)
  /\ (forall (ai : Gemini.Service) (now : JS.Clock) (s : AppState) (text : string)
             (displayed : RoomImage.t) (url : string),
         status s <> EDITING ->
         isEditCommand text = true ->
         currentDisplayedImage s = Some displayed ->
         editRoomImage ai (RoomImage.url displayed) text = Fulfilled url ->
         currentDisplayedImage (submitChat ai now text s)
         = Some (RoomImage.make (JS.toString (now 4%nat)) url "Custom Edit" (Some text))).
Proof.
  split.
  - intros sel s original Ho Hne Hs [style [url [Hf Hok]]].
    unfold selectStyle.
    rewrite (handleStyleSelect_run _ _ s _ original style Ho Hne Hs Hf).
    unfold styleRun. rewrite Hok.
    eexists. split; [reflexivity|].
    eapply appendsAndSelects_displays; reflexivity.
  - intros ai now s text displayed url Hs He Hd Hok.
    destruct (handleChatRequest_cases ai now s text)
      as [[Hs' _] | [[_ [d [_ [Hd' Hrun]]]] | [_ [[He' | Hd'] _]]]];
      try congruence.
    rewrite Hd in Hd'. injection Hd' as <-.
    unfold submitChat. rewrite Hrun. unfold editRun. rewrite Hok.
    eapply appendsAndSelects_displays; reflexivity.
Qed.

Lemma new_image_is_displayed_witness :
  option_map RoomImage.styleName (currentDisplayedImage Demo.twice)
  = Some "Bohemian Chic".
Proof.
  destruct new_image_is_displayed as [Hstyle _].
  destruct (Hstyle (Sample.press Sample.painter "boho") Sample.designed Sample.photo)
    as [img [Happ Hshown]].
  - reflexivity.
  - discriminate.
  - discriminate.
  - eexists. eexists. split; reflexivity.
  - reflexivity.
Defined.

(** X7: clicking the thumbnail of an image of the history makes it the
    displayed one, and an edit command submitted next is sent to the gateway
    with that image's URL as its source. *)
Theorem thumbnail_selects_edit_source (ai : Gemini.Service) (now : JS.Clock)
    (s : AppState) (idx : nat) (img : RoomImage.t) (text : string) :
  nth_error (generatedImages s) idx = Some img ->
  currentDisplayedImage (exec (thumbnail_onClick idx) s) = Some img
  /\ (status s <> EDITING ->
      isEditCommand text = true ->
      requests (handleChatRequest ai now (exec (thumbnail_onClick idx) s) text)
      = [ CallEditRoomImage (RoomImage.url img) text ]).
Proof.
  intro Hnth.
  assert (Hshown : currentDisplayedImage (exec (thumbnail_onClick idx) s) = Some img).
  { unfold currentDisplayedImage. cbn.
    destruct (Z.leb_spec 0 (Z.of_nat idx)); [|lia].
    rewrite Nat2Z.id. exact Hnth. }
  split; [exact Hshown|].
  intros Hs He.
  destruct (handleChatRequest_cases ai now (exec (thumbnail_onClick idx) s) text)
    as [[Hs' _] | [[_ [d [_ [Hd' ->]]]] | [_ [[He' | Hd'] _]]]];
    try congruence.
  - cbn in Hs'. contradiction.
  - rewrite Hshown in Hd'. injection Hd' as <-.
    unfold editRun. destruct (editRoomImage ai (RoomImage.url img) text); reflexivity.
Qed.

Lemma thumbnail_selects_edit_source_witness :
  option_map RoomImage.styleName
    (currentDisplayedImage (exec (thumbnail_onClick 0) Demo.twice))
  = Some "Scandinavian".
Proof.
  destruct (thumbnail_selects_edit_source Sample.painter Sample.clock Demo.twice 0
              (RoomImage.make "1700000000000" "data:image/png;base64,BBBB"
                 "Scandinavian" (Some "Reimagined in Scandinavian style"))
              "add a plant")
    as [Hshown _].
  - reflexivity.
  - rewrite Hshown. reflexivity.
Defined.

(** ** Runs of the controller *)

(** X8: a run of [handleStyleSelect] or [handleChatRequest] either does
    nothing at all or calls the gateway exactly once; in the second case it
    sets the status to [GENERATING] or [EDITING] and its last effect sets it
    back to [IDLE]. *)
Theorem one_gateway_call_per_run (ai : Gemini.Service) (now : JS.Clock)
    (s : AppState) (t : list Effect) :
  controllerRun ai now s t ->
  t = []
  \/ ((exists call, requests t = [call])
      /\ entersBusy t = true
      /\ exists t', t = (t' ++ [SetStatus IDLE])%list).
Proof.
  intros [styleId | text].
  - destruct (handleStyleSelect_cases ai now s styleId)
      as [-> | [original [style [_ [_ [_ [_ ->]]]]]]]; [left; reflexivity|].
    right. split; [|split].
    + unfold styleRun.
      destruct (generateReimaginedRoom ai original (StylePreset.prompt style));
        eexists; reflexivity.
    + reflexivity.
    + apply styleRun_ends_idle.
  - destruct (handleChatRequest_cases ai now s text)
      as [[_ ->] | [[_ [d [_ [_ ->]]]] | [_ [_ ->]]]]; [left; reflexivity | |];
      right; (split; [|split]).
    + unfold editRun. destruct (editRoomImage ai (RoomImage.url d) text);
        eexists; reflexivity.
    + reflexivity.
    + apply editRun_ends_idle.
    + unfold chatRun.
      destruct (sendChatMessage ai (fun k => now (k + 2)%nat) (chatMessages s) text
                  (contextImage s)); eexists; reflexivity.
    + reflexivity.
    + apply chatRun_ends_idle.
Qed.

Lemma one_gateway_call_per_run_witness :
  handleChatRequest Sample.talker Sample.clock Sample.designed "which lamp?" = []
  \/ ((exists call,
         requests
           (handleChatRequest Sample.talker Sample.clock Sample.designed "which lamp?")
         = [call])
      /\ entersBusy
           (handleChatRequest Sample.talker Sample.clock Sample.designed "which lamp?")
         = true
      /\ exists t',
           handleChatRequest Sample.talker Sample.clock Sample.designed "which lamp?"
           = (t' ++ [SetStatus IDLE])%list).
Proof.
  apply (one_gateway_call_per_run Sample.talker Sample.clock Sample.designed).
  apply RunChatRequest.
Defined.

(** X9: what the two handlers leave alone, whatever the store holds when
    their effects are applied: neither changes the original picture; a chat
    submission never changes the error message, so the banner of a failed
    generation stays through chat turns and edits; a style selection never
    changes the transcript. *)
Theorem handlers_frame (ai : Gemini.Service) (now : JS.Clock)
    (s store : AppState) :
  (forall t, controllerRun ai now s t ->
             originalImage (exec t store) = originalImage store)
  /\ (forall text,
        errorMsg (exec (handleChatRequest ai now s text) store) = errorMsg store)
  /\ (forall styleId,
        chatMessages (exec (handleStyleSelect ai now s styleId) store)
        = chatMessages store).
Proof.
  assert (Hstyle : forall styleId,
             originalImage (exec (handleStyleSelect ai now s styleId) store)
             = originalImage store
             /\ chatMessages (exec (handleStyleSelect ai now s styleId) store)
                = chatMessages store).
  { intro styleId.
    destruct (handleStyleSelect_cases ai now s styleId)
      as [-> | [original [style [_ [_ [_ [_ ->]]]]]]]; [split; reflexivity|].
    unfold styleRun.
    destruct (generateReimaginedRoom ai original (StylePreset.prompt style));
      split; reflexivity. }
  assert (Hchat : forall text,
             originalImage (exec (handleChatRequest ai now s text) store)
             = originalImage store
             /\ errorMsg (exec (handleChatRequest ai now s text) store)
                = errorMsg store).
  { intro text.
    destruct (handleChatRequest_cases ai now s text)
      as [[_ ->] | [[_ [d [_ [_ ->]]]] | [_ [_ ->]]]]; [split; reflexivity | |].
    - unfold editRun. destruct (editRoomImage ai (RoomImage.url d) text);
        split; reflexivity.
    - unfold chatRun.
      destruct (sendChatMessage ai (fun k => now (k + 2)%nat) (chatMessages s) text
                  (contextImage s)); split; reflexivity. }
  split; [|split].
  - intros t [styleId | text]; [apply Hstyle | apply Hchat].
  - intro text. apply Hchat.
  - intro styleId. apply Hstyle.
Qed.

(** ** The chat path *)

Lemma truthy_orElseOpt (v w : option string) :
  JS.orElseOpt v w = (if JS.truthy v then v else w).
Proof. reflexivity. Qed.

(** X10: the context image of a chat turn is the URL of the displayed image
    when there is one and its URL is not empty, else the original picture
    when there is one and it is not empty, else none; it is never an empty
    string. *)
Theorem contextImage_priority (s : AppState) :
  (forall img,
      currentDisplayedImage s = Some img ->
      RoomImage.url img <> "" ->
      contextImage s = Some (RoomImage.url img))
  /\ (JS.truthy (option_map RoomImage.url (currentDisplayedImage s)) = false ->
      forall original,
        originalImage s = Some original ->
        original <> "" ->
        contextImage s = Some original)
  /\ (JS.truthy (option_map RoomImage.url (currentDisplayedImage s)) = false ->
      JS.truthy (originalImage s) = false ->
      contextImage s = None)
  /\ (forall u, contextImage s = Some u -> u <> "").
Proof.
  unfold contextImage. split; [|split; [|split]].
  - intros img Hd Hne. rewrite Hd. simpl.
    apply truthy_Some in Hne. unfold JS.orElseOpt at 2. rewrite Hne.
    unfold JS.orElseOpt. rewrite Hne. reflexivity.
  - intros Hd original Ho Hne. unfold JS.orElseOpt at 2. rewrite Hd, Ho.
    apply truthy_Some in Hne. unfold JS.orElseOpt. rewrite Hne. reflexivity.
  - intros Hd Ho. unfold JS.orElseOpt at 2. rewrite Hd.
    unfold JS.orElseOpt. rewrite Ho. reflexivity.
  - intros u Hu. apply truthy_Some.
    rewrite truthy_orElseOpt in Hu.
    destruct (JS.truthy (JS.orElseOpt _ _)) eqn:Ht; [|discriminate].
    rewrite <- Hu. exact Ht.
Qed.

Lemma contextImage_priority_witness :
  contextImage Sample.designed = Some "data:image/png;base64,BBBB"
  /\ contextImage Sample.uploaded = Some Sample.photo.
Proof.
  destruct (contextImage_priority Sample.designed) as [Hshown _].
  destruct (contextImage_priority Sample.uploaded) as [_ [Horiginal _]].
  split.
  - apply (Hshown (RoomImage.make "1700000000000" "data:image/png;base64,BBBB"
                     "Scandinavian" (Some "Reimagined in Scandinavian style"))).
    + reflexivity.
    + discriminate.
  - apply Horiginal.
    + reflexivity.
    + reflexivity.
    + discriminate.
Defined.

(** X11: a chat turn, the path taken when the text is no edit command or no
    image is displayed.  The gateway is called once with the transcript of
    the render (the new message not in it), the text and the context image.
    When the call succeeds the transcript gains the user's message and the
    reply; when it fails it gains the user's message and one model message
    that reports the connection problem.  Either way no image is appended,
    the history, the selection, the original picture and the error message
    are as before, and the status is [IDLE]. *)
Theorem chat_turn (ai : Gemini.Service) (now : JS.Clock) (s : AppState)
    (text : string) :
  status s <> EDITING ->
  isEditCommand text = false \/ currentDisplayedImage s = None ->
  requests (handleChatRequest ai now s text)
  = [ CallSendChatMessage (chatMessages s) text (contextImage s) ]
  /\ appendedImages (handleChatRequest ai now s text) = []
  /\ exists reply,
       ChatMessage.role reply = model
       /\ match sendChatMessage ai (fun k => now (k + 2)%nat) (chatMessages s) text
                  (contextImage s) with
          | Fulfilled responseMsg => reply = responseMsg
          | Rejected _ => reply = connectionFailedMessage now
          end
       /\ exec (handleChatRequest ai now s text) s
          = {| originalImage := originalImage s;
               generatedImages := generatedImages s;
               selectedImageIndex := selectedImageIndex s;
               status := IDLE;
               chatMessages := (chatMessages s ++ [userMessage now text; reply])%list;
               errorMsg := errorMsg s |}.
Proof.
  intros Hs Hpath.
  destruct (handleChatRequest_cases ai now s text)
    as [[Hs' _] | [[_ [d [He [Hd _]]]] | [_ [_ ->]]]].
  - contradiction.
  - destruct Hpath; congruence.
  - unfold chatRun.
    destruct (sendChatMessage ai (fun k => now (k + 2)%nat) (chatMessages s) text
                (contextImage s)) as [m | err] eqn:Hsend.
    + split; [reflexivity|]. split; [reflexivity|].
      exists m. split; [exact (sendChatMessage_role _ _ _ _ _ _ Hsend)|].
      split; [reflexivity|]. cbn. rewrite <- app_assoc. reflexivity.
    + split; [reflexivity|]. split; [reflexivity|].
      exists (connectionFailedMessage now). split; [reflexivity|].
      split; [reflexivity|]. cbn. rewrite <- app_assoc. reflexivity.
Qed.

Lemma chat_turn_witness :
  requests (handleChatRequest Sample.down Sample.clock Sample.designed "which lamp?")
  = [ CallSendChatMessage [] "which lamp?" (Some "data:image/png;base64,BBBB") ]
  /\ map ChatMessage.text
       (chatMessages
          (exec (handleChatRequest Sample.down Sample.clock Sample.designed "which lamp?")
             Sample.designed))
     = [ "which lamp?";
         "I'm having trouble connecting right now. Please try again." ].
Proof.
  destruct (chat_turn Sample.down Sample.clock Sample.designed "which lamp?")
    as [Hreq _].
  - discriminate.
  - left. reflexivity.
  - split; [exact Hreq | reflexivity].
Defined.

(** X12: a successful edit.  The run appends the user's message, sets the
    status to [EDITING], appends the model message that announces the edit,
    calls Edit on the displayed image with the text as instruction, and then
    appends the image (style name "Custom Edit", the text as description, the
    returned URL), selects it, appends the confirmation and sets the status
    to [IDLE], in this order. *)
Theorem successful_edit (ai : Gemini.Service) (now : JS.Clock) (s : AppState)
    (text : string) (displayed : RoomImage.t) (url : string) :
  status s <> EDITING ->
  isEditCommand text = true ->
  currentDisplayedImage s = Some displayed ->
  editRoomImage ai (RoomImage.url displayed) text = Fulfilled url ->
  handleChatRequest ai now s text
  = [ AppendChatMessage (userMessage now text);
      SetStatus EDITING;
      AppendChatMessage (applyingMessage now);
      Await (CallEditRoomImage (RoomImage.url displayed) text);
      AppendGeneratedImage
        (RoomImage.make (JS.toString (now 4%nat)) url "Custom Edit" (Some text));
      SetSelectedImageIndex (Z.of_nat (List.length (generatedImages s)));
      AppendChatMessage (editDoneMessage now);
      SetStatus IDLE ]
  /\ exec (handleChatRequest ai now s text) s
     = {| originalImage := originalImage s;
          generatedImages :=
            (generatedImages s
             ++ [ RoomImage.make (JS.toString (now 4%nat)) url "Custom Edit"
                    (Some text) ])%list;
          selectedImageIndex := Z.of_nat (List.length (generatedImages s));
          status := IDLE;
          chatMessages :=
            (chatMessages s
             ++ [ userMessage now text; applyingMessage now; editDoneMessage now ])%list;
          errorMsg := errorMsg s |}.
Proof.
  intros Hs He Hd Hok.
  destruct (handleChatRequest_cases ai now s text)
    as [[Hs' _] | [[_ [d [_ [Hd' ->]]]] | [_ [[He' | Hd'] _]]]];
    try congruence.
  rewrite Hd in Hd'. injection Hd' as <-.
  unfold editRun. rewrite Hok. split; [reflexivity|].
  cbn. rewrite <- !app_assoc. reflexivity.
Qed.

Lemma successful_edit_witness :
  map ChatMessage.text
    (chatMessages
       (exec (handleChatRequest Sample.painter Sample.clock Sample.designed
                "add more plants")
          Sample.designed))
  = [ "add more plants";
      "I'm applying those changes to the design...";
      "Here is the updated design based on your request." ].
Proof.
  destruct (successful_edit Sample.painter Sample.clock Sample.designed
              "add more plants"
              (RoomImage.make "1700000000000" "data:image/png;base64,BBBB"
                 "Scandinavian" (Some "Reimagined in Scandinavian style"))
              "data:image/png;base64,BBBB")
    as [_ Hstate].
  - discriminate.
  - reflexivity.
  - reflexivity.
  - reflexivity.
  - rewrite Hstate. reflexivity.
Defined.

(** ** Data URLs *)

Lemma string_app_assoc (a b c : string) : (a ++ b) ++ c = a ++ (b ++ c).
Proof. induction a as [|x a IH]; simpl; [reflexivity | rewrite IH; reflexivity]. Qed.


Lemma split_absent (c : ascii) (s : string) :
  includes c s = false -> JS.split c s = [s].
Proof.
  induction s as [|x s IH]; simpl; [reflexivity|].
  intro H. apply orb_false_elim in H. destruct H as [Hx Hs].
  rewrite Hx, (IH Hs). reflexivity.
Qed.

Lemma split_at_first (c : ascii) (a rest : string) :
  includes c a = false ->
  JS.split c (a ++ String c rest) = a :: JS.split c rest.
Proof.
  induction a as [|x a IH]; simpl.
  - intros _. rewrite Ascii.eqb_refl. reflexivity.
  - intro H. apply orb_false_elim in H. destruct H as [Hx Ha].
    rewrite Hx, (IH Ha). reflexivity.
Qed.

Lemma split_head_includes (c sep : ascii) (s : string) :
  includes c s = false ->
  exists head pieces,
    JS.split sep s = head :: pieces /\ includes c head = false.
Proof.
  induction s as [|x s IH]; simpl.
  - intros _. exists "", []. split; reflexivity.
  - intro H. apply orb_false_elim in H. destruct H as [Hx Hs].
    destruct (Ascii.eqb x sep).
    + exists "", (JS.split sep s). split; reflexivity.
    + destruct (IH Hs) as [head [pieces [Heq Hhead]]]. rewrite Heq.
      exists (String x head), pieces. split; [reflexivity|].
      simpl. rewrite Hx, Hhead. reflexivity.
Qed.

Lemma orElse_nonempty (v : option string) (d : string) :
  d <> "" -> JS.orElse v d <> "".
Proof.
  intro Hd. unfold JS.orElse. destruct (JS.truthy v) eqn:Ht; [|exact Hd].
  destruct v as [x|]; [apply truthy_Some; exact Ht | exact Hd].
Qed.

Lemma orElse_Some (x d : string) : x <> "" -> JS.orElse (Some x) d = x.
Proof. intro H. apply truthy_Some in H. unfold JS.orElse. rewrite H. reflexivity. Qed.



(** X14: the fallbacks of the two helpers.  [getMimeType] never returns an
    empty string and returns "image/jpeg" for a string without [:];
    [stripBase64Prefix] returns a string without a comma as it is, never
    returns an empty string for a non-empty one, and for a string that ends
    at its first comma (a data URL with an empty payload) returns the whole
    string, prefix included. *)
Theorem prefix_fallbacks (s : string) :
  getMimeType s <> ""
  /\ (includes ":" s = false -> getMimeType s = "image/jpeg")
  /\ (includes "," s = false -> stripBase64Prefix s = s)
  /\ (s <> "" -> stripBase64Prefix s <> "")
  /\ (includes "," s = false -> stripBase64Prefix (s ++ ",") = s ++ ",").
Proof.
  split; [|split; [|split; [|split]]].
  - unfold getMimeType. apply orElse_nonempty. discriminate.
  - intro H. unfold getMimeType.
    destruct (split_head_includes ":" ";" s H) as [head [pieces [Heq Hhead]]].
    rewrite Heq. cbn [nth_error]. rewrite (split_absent _ _ Hhead). reflexivity.
  - intro H. unfold stripBase64Prefix. rewrite (split_absent _ _ H). reflexivity.
  - intro H. unfold stripBase64Prefix. apply orElse_nonempty. exact H.
  - intro H. unfold stripBase64Prefix.
    change (s ++ ",") with (s ++ String "," "").
    rewrite (split_at_first _ _ _ H). reflexivity.
Qed.

Lemma prefix_fallbacks_witness :
  getMimeType "AAAA" = "image/jpeg"
  /\ stripBase64Prefix "AAAA" = "AAAA"
  /\ stripBase64Prefix "data:image/png;base64," = "data:image/png;base64,".
Proof.
  destruct (prefix_fallbacks "AAAA") as [_ [Hmime [Hstrip _]]].
  destruct (prefix_fallbacks "data:image/png;base64") as [_ [_ [_ [_ Hempty]]]].
  split; [|split].
  - apply Hmime. reflexivity.
  - apply Hstrip. reflexivity.
  - apply Hempty. reflexivity.
Defined.

(** ** The chat operation of the gateway *)

Lemma sendChatMessage_unfold (ai : Gemini.Service) (now : JS.Clock)
    (history : list ChatMessage.t) (newMessage : string) (image : option string) :
  sendChatMessage ai now history newMessage image
  = match ai (chatRequest history newMessage image) with
    | Gemini.Responded response =>
        Fulfilled
          (ChatMessage.make (JS.toString (now 0%nat)) model
             (JS.orElse (Gemini.responseText response)
                "I couldn't generate a response. Please try again.")
             (now 1%nat)
             (Some match responseChunks response with
                   | Some chunks => collectGrounding chunks
                   | None => []
                   end))
    | Gemini.Threw => Rejected ServiceFailure
    end.
Proof. reflexivity. Qed.

Lemma collectGrounding_In (chunks : list Gemini.GroundingChunk) (u : GroundingUrl) :
  In u (collectGrounding chunks)
  <-> exists chunk, In chunk chunks /\ Gemini.web chunk = Some u.
Proof.
  induction chunks as [|chunk rest IH]; simpl.
  - split; [intros [] | intros [chunk [[] _]]].
  - destruct (Gemini.web chunk) as [w|] eqn:Hw.
    + simpl. rewrite IH. destruct w as [wu wt]. simpl. split.
      * intros [<- | [c [Hin Hc]]].
        -- exists chunk. split; [left; reflexivity | exact Hw].
        -- exists c. split; [right; exact Hin | exact Hc].
      * intros [c [[<- | Hin] Hc]].
        -- left. congruence.
        -- right. exists c. split; assumption.
    + rewrite IH. split.
      * intros [c [Hin Hc]]. exists c. split; [right; exact Hin | exact Hc].
      * intros [c [[<- | Hin] Hc]]; [congruence|].
        exists c. split; assumption.
Qed.

Lemma collectGrounding_length (chunks : list Gemini.GroundingChunk) :
  (List.length (collectGrounding chunks) <= List.length chunks)%nat.
Proof.
  induction chunks as [|chunk rest IH]; simpl; [lia|].
  destruct (Gemini.web chunk); simpl; lia.
Qed.

(** X15: what a chat turn of the gateway returns.  When the service call
    throws, the operation rejects with what was thrown.  When the service
    answers, it returns a message of the model role whose text is the
    response's text, or "I couldn't generate a response. Please try again."
    when that text is missing or empty, so the text is never empty; its
    grounding links are always present (an empty list when the response has
    no grounding metadata) and are exactly the [web] entries of the grounding
    chunks of the first candidate, chunks without one left out. *)
Theorem chat_reply_shape (ai : Gemini.Service) (now : JS.Clock)
    (history : list ChatMessage.t) (newMessage : string) (image : option string) :
  (ai (chatRequest history newMessage image) = Gemini.Threw ->
   sendChatMessage ai now history newMessage image = Rejected ServiceFailure)
  /\ (forall response,
        ai (chatRequest history newMessage image) = Gemini.Responded response ->
        exists reply urls,
          sendChatMessage ai now history newMessage image = Fulfilled reply
          /\ ChatMessage.role reply = model
          /\ ChatMessage.text reply <> ""
          /\ (forall t, Gemini.responseText response = Some t -> t <> "" ->
                        ChatMessage.text reply = t)
          /\ (JS.truthy (Gemini.responseText response) = false ->
              ChatMessage.text reply
              = "I couldn't generate a response. Please try again.")
          /\ ChatMessage.groundingUrls reply = Some urls
          /\ (responseChunks response = None -> urls = [])
          /\ (forall chunks,
                responseChunks response = Some chunks ->
                (List.length urls <= List.length chunks)%nat
                /\ forall u,
                     In u urls
                     <-> exists chunk, In chunk chunks /\ Gemini.web chunk = Some u)).
Proof.
  rewrite sendChatMessage_unfold. split.
  - intros ->. reflexivity.
  - intros response ->. eexists. eexists. split; [reflexivity|]. cbn.
    split; [reflexivity|]. split; [apply orElse_nonempty; discriminate|].
    split; [|split; [|split; [reflexivity|split]]].
    + intros t -> Ht. apply orElse_Some. exact Ht.
    + intro Ht. unfold JS.orElse. rewrite Ht. reflexivity.
    + intros ->. reflexivity.
    + intros chunks ->. split; [apply collectGrounding_length|].
      intro u. apply collectGrounding_In.
Qed.

Lemma chat_reply_shape_witness :
  exists reply,
    sendChatMessage Sample.talker Sample.clock [] "which lamp?" None = Fulfilled reply
    /\ ChatMessage.text reply = "Here you are.".
Proof.
  destruct (chat_reply_shape Sample.talker Sample.clock [] "which lamp?" None)
    as [_ Hanswer].
  destruct (Hanswer (Sample.responseOf [Sample.caption]) eq_refl)
    as [reply [urls [Heq [_ [_ [Htext _]]]]]].
  exists reply. split; [exact Heq|].
  apply Htext; [reflexivity | discriminate].
Defined.

Lemma sliceLast_app {A : Type} (n : nat) (older recent : list A) :
  (n <= List.length recent)%nat ->
  JS.sliceLast n (older ++ recent) = JS.sliceLast n recent.
Proof.
  intro H. unfold JS.sliceLast. rewrite length_app, skipn_app.
  replace (List.length older + List.length recent - n - List.length older)%nat
    with (List.length recent - n)%nat by lia.
  rewrite skipn_all2 by lia. reflexivity.
Qed.

(** X16: what a chat turn sends.  The request goes to the model
    "gemini-3-pro-preview" with the search tool enabled.  Its parts are the
    context image and its caption, when there is a non-empty context image,
    and then one text part: the last six messages of the transcript, one per
    line as "User: <text>" or "Designer: <text>" by role, then "User: <new
    message>" and "Designer:".  Nothing older than the last six is sent:
    prepending any messages to a transcript that already has six leaves the
    request, and so the outcome of the operation, as it is; a shorter
    transcript is sent whole. *)
Theorem chat_sends_last_six (ai : Gemini.Service) (now : JS.Clock)
    (older : list ChatMessage.t) (newMessage : string) (image : option string) :
  let line := fun m : ChatMessage.t =>
    match ChatMessage.role m with user => "User" | model => "Designer" end
    ++ ": " ++ ChatMessage.text m in
  let nl := String "010"%char "" in
  let context :=
    match image with
    | Some img =>
        if String.eqb img "" then []
        else [ {| Gemini.inlineData :=
                    Some {| Gemini.mimeType := Some (getMimeType img);
                            Gemini.data := Some (stripBase64Prefix img) |};
                  Gemini.text := None |};
               {| Gemini.inlineData := None;
                  Gemini.text :=
                    Some "This is the current room design we are discussing." |} ]
    | None => []
    end in
  (forall recent,
      (6 <= List.length recent)%nat ->
      chatRequest (older ++ recent) newMessage image
      = chatRequest recent newMessage image
      /\ sendChatMessage ai now (older ++ recent) newMessage image
         = sendChatMessage ai now recent newMessage image)
  /\ (forall m1 m2 m3 m4 m5 m6,
        Gemini.contents
          (chatRequest (older ++ [m1; m2; m3; m4; m5; m6]) newMessage image)
        = (context
           ++ [ {| Gemini.inlineData := None;
                   Gemini.text :=
                     Some (line m1 ++ nl ++ line m2 ++ nl ++ line m3 ++ nl
                           ++ line m4 ++ nl ++ line m5 ++ nl ++ line m6 ++ nl
                           ++ "User: " ++ newMessage ++ nl ++ "Designer:")%string |} ])%list)
  /\ (forall m1 m2,
        Gemini.contents (chatRequest [m1; m2] newMessage image)
        = (context
           ++ [ {| Gemini.inlineData := None;
                   Gemini.text :=
                     Some (line m1 ++ nl ++ line m2 ++ nl
                           ++ "User: " ++ newMessage ++ nl ++ "Designer:")%string |} ])%list)
  /\ Gemini.contents (chatRequest [] newMessage image)
     = (context
        ++ [ {| Gemini.inlineData := None;
                Gemini.text :=
                  Some (nl ++ "User: " ++ newMessage ++ nl ++ "Designer:")%string |} ])%list
  /\ Gemini.requestModel (chatRequest older newMessage image) = "gemini-3-pro-preview"
  /\ option_map Gemini.tools (Gemini.config (chatRequest older newMessage image))
     = Some [ Gemini.googleSearch ].
Proof.
  cbv zeta.
  assert (Hcontext :
            match image with
            | Some img =>
                if JS.truthy image
                then [ imagePart img;
                       textPart "This is the current room design we are discussing." ]
                else []
            | None => []
            end
            = match image with
              | Some img =>
                  if String.eqb img "" then []
                  else [ {| Gemini.inlineData :=
                              Some {| Gemini.mimeType := Some (getMimeType img);
                                      Gemini.data := Some (stripBase64Prefix img) |};
                            Gemini.text := None |};
                         {| Gemini.inlineData := None;
                            Gemini.text :=
                              Some "This is the current room design we are discussing." |} ]
              | None => []
              end).
  { destruct image as [img|]; [|reflexivity].
    unfold JS.truthy. destruct (String.eqb img ""); reflexivity. }
  split; [|split; [|split; [|split; [|split]]]].
  - intros recent H.
    assert (Hreq : chatRequest (older ++ recent) newMessage image
                   = chatRequest recent newMessage image).
    { unfold chatRequest. rewrite (sliceLast_app 6 older recent H). reflexivity. }
    split; [exact Hreq|].
    rewrite !sendChatMessage_unfold, Hreq. reflexivity.
  - intros m1 m2 m3 m4 m5 m6. unfold chatRequest. cbn [Gemini.contents].
    rewrite Hcontext. f_equal.
    rewrite (sliceLast_app 6 older [m1; m2; m3; m4; m5; m6]) by (simpl; lia).
    unfold JS.sliceLast, historyLine, textPart, JS.LF.
    cbn [List.length Nat.sub skipn map JS.join].
    destruct (ChatMessage.role m1), (ChatMessage.role m2), (ChatMessage.role m3),
      (ChatMessage.role m4), (ChatMessage.role m5), (ChatMessage.role m6);
      cbn [role_eqb]; rewrite !string_app_assoc; reflexivity.
  - intros m1 m2. unfold chatRequest. cbn [Gemini.contents].
    rewrite Hcontext. f_equal.
    unfold JS.sliceLast, historyLine, textPart, JS.LF.
    cbn [List.length Nat.sub skipn map JS.join].
    destruct (ChatMessage.role m1), (ChatMessage.role m2);
      cbn [role_eqb]; rewrite !string_app_assoc; reflexivity.
  - unfold chatRequest. cbn [Gemini.contents]. rewrite Hcontext. reflexivity.
  - reflexivity.
  - reflexivity.
Qed.

Lemma chat_sends_last_six_witness :
  chatRequest (Demo.older ++ Demo.recent) "and now?" None
  = chatRequest Demo.recent "and now?" None.
Proof.
  destruct (chat_sends_last_six Sample.talker Sample.clock Demo.older "and now?" None)
    as [Hsame _].
  apply (Hsame Demo.recent). simpl. lia.
Defined.

(** ** The chat form *)

(** X17: the chat form hands a text to the controller only when the text is
    not empty after trimming and nothing is in flight; it then hands over the
    trimmed text and empties the input box.  Otherwise nothing is sent and
    the input box keeps what was typed; so a blank submission has no effect
    whatever the status, and when idle a non-blank submission is
    [handleChatRequest] of the trimmed text. *)
Theorem chat_form_sends_trimmed (trim : string -> string) (input : string) :
  (forall isProcessing text rest,
      handleSubmit trim input isProcessing = (Some text, rest) ->
      text = trim input /\ text <> "" /\ isProcessing = false /\ rest = "")
  /\ (forall isProcessing rest,
        handleSubmit trim input isProcessing = (None, rest) ->
        rest = input /\ (trim input = "" \/ isProcessing = true))
  /\ (trim input = "" ->
      forall ai now s, chatForm_onSubmit trim ai now s input = [])
  /\ (trim input <> "" ->
      forall ai now s,
        status s = IDLE ->
        chatForm_onSubmit trim ai now s input
        = handleChatRequest ai now s (trim input)).
Proof.
  unfold chatForm_onSubmit, handleSubmit.
  destruct (JS.truthy (Some (trim input))) eqn:Ht.
  - pose proof (proj1 (truthy_Some _) Ht) as Hne.
    split; [|split; [|split]].
    + intros [] text rest H; simpl in H; inversion H; subst. repeat split. exact Hne.
    + intros [] rest H; simpl in H; inversion H; subst.
      split; [reflexivity | right; reflexivity].
    + intro H. contradiction.
    + intros _ ai now s Hs. rewrite Hs. reflexivity.
  - assert (Hempty : trim input = "").
    { unfold JS.truthy in Ht. apply negb_false_iff, String.eqb_eq in Ht. exact Ht. }
    split; [|split; [|split]].
    + intros isProcessing text rest H. simpl in H. discriminate.
    + intros isProcessing rest H. simpl in H. inversion H; subst.
      split; [reflexivity | left; exact Hempty].
    + intros _ ai now s. reflexivity.
    + intro H. contradiction.
Qed.

Lemma chat_form_sends_trimmed_witness :
  chatForm_onSubmit Sample.trim Sample.talker Sample.clock Sample.designed "which lamp?"
  = handleChatRequest Sample.talker Sample.clock Sample.designed "which lamp?".
Proof.
  destruct (chat_form_sends_trimmed Sample.trim "which lamp?") as [_ [_ [_ Hsend]]].
  apply Hsend.
  - discriminate.
  - reflexivity.
Defined.

(** ** Dragging the slider *)

Lemma handleMove_within (current : option DOMRect) (position clientX : Number.t) :
  wellPlaced (MouseMove current clientX) = true ->
  Number.isPercentage position = true ->
  Number.isPercentage (handleMove current position clientX) = true.
Proof.
  intros Hplaced Hpos. destruct current as [rect|]; [|exact Hpos].
  simpl in Hplaced. apply andb_true_iff in Hplaced. destruct Hplaced as [H Hz].
  apply andb_true_iff in H. destruct H as [H Hw].
  apply andb_true_iff in H. destruct H as [Hx Hl].
  unfold handleMove. apply clamp_isPercentage.
  destruct (width rect) as [sw | sw | | sw mw ew]; try discriminate.
  change (Number.ofZ 100) with (S754_finite false 7036874417766400 (-46)).
  apply SFmul_isNaN, SFdiv_isNaN, max_isNaN; [reflexivity|].
  apply min_isNaN; [|reflexivity].
  apply SFsub_isNaN; assumption.
Qed.

Lemma sliderStep_within (st : SliderState) (ev : SliderEvent) :
  wellPlaced ev = true ->
  Number.isPercentage (sliderPosition st) = true ->
  Number.isPercentage (sliderPosition (sliderStep st ev)) = true.
Proof.
  intros Hplaced Hpos.
  destruct ev as [| | current clientX | | | current clientX |]; simpl;
    try exact Hpos;
    destruct (isDragging st); simpl; try exact Hpos;
    apply handleMove_within; assumption.
Qed.

Lemma sliderStep_idle (st : SliderState) (ev : SliderEvent) :
  startsDrag ev = false ->
  isDragging st = false ->
  isDragging (sliderStep st ev) = false
  /\ sliderPosition (sliderStep st ev) = sliderPosition st.
Proof.
  intros Hev Hst.
  destruct ev; simpl in *; try discriminate; rewrite ?Hst; split;
    try reflexivity; exact Hst.
Qed.

Lemma sliderRun_within (events : list SliderEvent) :
  forall st,
    forallb wellPlaced events = true ->
    Number.isPercentage (sliderPosition st) = true ->
    Number.isPercentage (sliderPosition (sliderRun events st)) = true.
Proof.
  induction events as [|ev rest IH]; intros st Hall Hpos; [exact Hpos|].
  simpl in Hall. apply andb_true_iff in Hall. destruct Hall as [Hev Hrest].
  apply (IH (sliderStep st ev) Hrest). apply sliderStep_within; assumption.
Qed.

Lemma sliderRun_idle (events : list SliderEvent) :
  forall st,
    existsb startsDrag events = false ->
    isDragging st = false ->
    sliderPosition (sliderRun events st) = sliderPosition st.
Proof.
  induction events as [|ev rest IH]; intros st Hnone Hst; [reflexivity|].
  simpl in Hnone. apply orb_false_elim in Hnone. destruct Hnone as [Hev Hrest].
  destruct (sliderStep_idle st ev Hev Hst) as [Hidle Hsame].
  change (sliderRun (ev :: rest) st) with (sliderRun rest (sliderStep st ev)).
  rewrite (IH (sliderStep st ev) Hrest Hidle). exact Hsame.
Qed.

(** X18: the slider over any sequence of mouse and touch events.  The
    position starts at 50 and stays between 0 and 100 as long as every move
    comes with finite coordinates and a container of finite width other than
    zero; and the position only moves during a drag: from a state that is not
    dragging, events among which there is no mouse-down and no touch-start
    leave the position where it was. *)
Theorem slider_invariant (events : list SliderEvent) :
  (forallb wellPlaced events = true ->
   Number.isPercentage (sliderPosition (sliderRun events sliderInitial)) = true)
  /\ (forall st,
        forallb wellPlaced events = true ->
        Number.isPercentage (sliderPosition st) = true ->
        Number.isPercentage (sliderPosition (sliderRun events st)) = true)
  /\ (forall st,
        existsb startsDrag events = false ->
        isDragging st = false ->
        sliderPosition (sliderRun events st) = sliderPosition st).
Proof.
  split; [|split].
  - intro Hall. apply sliderRun_within; [exact Hall | reflexivity].
  - apply sliderRun_within.
  - apply sliderRun_idle.
Qed.

Lemma slider_invariant_witness :
  Number.isPercentage (sliderPosition (sliderRun Demo.drag sliderInitial)) = true
  /\ sliderPosition (sliderRun Demo.drag sliderInitial) = Number.ofZ 25.
Proof.
  destruct (slider_invariant Demo.drag) as [Hwithin _].
  split.
  - apply Hwithin. reflexivity.
  - reflexivity.
Defined.

(** A number at most zero: [-Infinity], a negative number or a zero. *)
Lemma SFleb_zero_cases (d : spec_float) :
  SFleb d (Number.ofZ 0) = true ->
  d = S754_infinity true
  \/ (exists m e, d = S754_finite true m e)
  \/ (exists s, d = S754_zero s).
Proof.
  destruct d as [s | [] | | [] m e]; simpl; try discriminate; intros _.
  - right. right. exists s. reflexivity.
  - left. reflexivity.
  - right. left. exists m, e. reflexivity.
Qed.

(** A number at least a positive finite one is that number again, a larger
    finite one, or [+Infinity]; in each case the minimum of the two is the
    positive finite one. *)
Lemma min_of_larger (d : spec_float) (m : positive) (e : Z) :
  SFleb (S754_finite false m e) d = true ->
  Number.min d (S754_finite false m e) = S754_finite false m e.
Proof.
  unfold SFleb, Number.min.
  destruct d as [s | [] | | [] md ed]; simpl; try discriminate; try reflexivity.
  rewrite (Z.compare_antisym ed e).
  destruct (Z.compare ed e) eqn:He; simpl; try discriminate; try reflexivity.
  apply Z.compare_eq in He. subst ed.
  assert (Hflip : Pos.compare_cont Eq m md = CompOpp (Pos.compare_cont Eq md m))
    by (symmetry; apply (Pos.compare_cont_antisym md m Eq)).
  rewrite Hflip.
  destruct (Pos.compare_cont Eq md m) eqn:Hm; simpl; try discriminate;
    try reflexivity.
  apply Pos.compare_eq in Hm. subst md. reflexivity.
Qed.

(** A positive finite number divided by itself is one. *)
Lemma div_self (m : positive) (e : Z) :
  Number.div (S754_finite false m e) (S754_finite false m e) = Number.ofZ 1.
Proof.
  unfold Number.div, SFdiv, SFdiv_core_binary.
  rewrite !Z.sub_diag.
  change (Z.min (fexp Number.prec Number.emax 0) 0) with (-53)%Z.
  change (0 - -53)%Z with 53%Z. cbv iota.
  rewrite Z.shiftl_mul_pow2 by lia.
  pose proof (Z.div_mul (2 ^ 53) (Zpos m) ltac:(lia)) as Hq.
  pose proof (Z.mod_mul (2 ^ 53) (Zpos m) ltac:(lia)) as Hr.
  rewrite (Z.mul_comm (2 ^ 53) (Zpos m)) in Hq, Hr.
  unfold Z.div in Hq. unfold Z.modulo in Hr.
  destruct (Z.div_eucl (Zpos m * 2 ^ 53) (Zpos m)) as [q r].
  simpl in Hq, Hr. subst q r.
  assert (Hloc : new_location (Zpos m) 0 = loc_Exact).
  { unfold new_location, new_location_even, new_location_odd.
    destruct (Z.even (Zpos m)); reflexivity. }
  rewrite Hloc. vm_compute. reflexivity.
Qed.

(** X19: the slider pins at the edges of a container of positive finite
    width.  When the pointer's offset into the container,
    [clientX - rect.left], is at most zero the new position is 0, and when
    the offset is at least the width the new position is 100. *)
Theorem slider_pins_at_edges (rect : DOMRect) (position clientX : Number.t)
    (m : positive) (e : Z) :
  width rect = S754_finite false m e ->
  (SFleb (Number.sub clientX (left rect)) (Number.ofZ 0) = true ->
   handleMove (Some rect) position clientX = Number.ofZ 0)
  /\ (SFleb (width rect) (Number.sub clientX (left rect)) = true ->
      handleMove (Some rect) position clientX = Number.ofZ 100).
Proof.
  intro Hw. unfold handleMove. rewrite Hw. split.
  - intro Hle.
    destruct (SFleb_zero_cases _ Hle) as [-> | [[md [ed ->]] | [[] ->]]];
      reflexivity.
  - intro Hge. rewrite (min_of_larger _ m e Hge).
    change (Number.max (Number.ofZ 0) (S754_finite false m e))
      with (S754_finite false m e).
    rewrite div_self. reflexivity.
Qed.

Lemma slider_pins_at_edges_witness :
  handleMove (Some (Sample.rect 10 200)) initialSliderPosition (Number.ofZ 5)
  = Number.ofZ 0
  /\ handleMove (Some (Sample.rect 10 200)) initialSliderPosition (Number.ofZ 300)
     = Number.ofZ 100.
Proof.
  destruct (slider_pins_at_edges (Sample.rect 10 200) initialSliderPosition
              (Number.ofZ 5) 7036874417766400 (-45) eq_refl) as [Hleft _].
  destruct (slider_pins_at_edges (Sample.rect 10 200) initialSliderPosition
              (Number.ofZ 300) 7036874417766400 (-45) eq_refl) as [_ Hright].
  split.
  - apply Hleft. reflexivity.
  - apply Hright. reflexivity.
Defined.

(** ** Sessions *)

Lemma controllerRun_cut (ai : Gemini.Service) (now : JS.Clock) (s : AppState)
    (t : list Effect) :
  controllerRun ai now s t ->
  t = []
  \/ ((forall s', status (exec (beforeAwait t) s') = GENERATING
                  \/ status (exec (beforeAwait t) s') = EDITING)
      /\ settlesIdle (afterAwait t)).
Proof.
  intros [styleId | text].
  - destruct (handleStyleSelect_cases ai now s styleId)
      as [-> | [original [style [_ [_ [_ [_ ->]]]]]]]; [left; reflexivity|].
    right. unfold styleRun. split.
    + intro s'. left. reflexivity.
    + intro s'.
      destruct (generateReimaginedRoom ai original (StylePreset.prompt style));
        reflexivity.
  - destruct (handleChatRequest_cases ai now s text)
      as [[_ ->] | [[_ [d [_ [_ ->]]]] | [_ [_ ->]]]]; [left; reflexivity | |];
      right.
    + unfold editRun. split.
      * intro s'. right. reflexivity.
      * intro s'. destruct (editRoomImage ai (RoomImage.url d) text); reflexivity.
    + unfold chatRun. split.
      * intro s'. left. reflexivity.
      * intro s'.
        destruct (sendChatMessage ai (fun k => now (k + 2)%nat) (chatMessages s) text
                    (contextImage s)); reflexivity.
Qed.

Lemma styleButton_run (ai : Gemini.Service) (now : JS.Clock) (s : AppState)
    (styleId : string) :
  styleButton_onClick ai now s styleId = []
  \/ controllerRun ai now s (styleButton_onClick ai now s styleId).
Proof.
  unfold styleButton_onClick.
  destruct (negb (status_eqb (status s) IDLE)); [left; reflexivity|].
  right. apply RunStyleSelect.
Qed.

Lemma chatForm_run (trim : string -> string) (ai : Gemini.Service) (now : JS.Clock)
    (s : AppState) (input : string) :
  chatForm_onSubmit trim ai now s input = []
  \/ controllerRun ai now s (chatForm_onSubmit trim ai now s input).
Proof.
  unfold chatForm_onSubmit.
  destruct (fst (handleSubmit trim input (negb (status_eqb (status s) IDLE))))
    as [text|]; [|left; reflexivity].
  right. apply RunChatRequest.
Qed.

Lemma Forall_dropNth {A : Type} (P : A -> Prop) (k : nat) (l : list A) :
  Forall P l -> Forall P (dropNth k l).
Proof.
  revert k. induction l as [|x l IH]; intros k H.
  - destruct k; constructor.
  - inversion H as [|? ? Hx Hl]; subst. destruct k as [|k].
    + exact Hl.
    + change (dropNth (S k) (x :: l)) with (x :: dropNth k l).
      constructor; [exact Hx | apply IH, Hl].
Qed.

Lemma invoke_accounted (ai : Gemini.Service) (now : JS.Clock) (t : list Effect)
    (p : Page) :
  t = [] \/ controllerRun ai now (store p) t ->
  accounted p ->
  accounted (invoke t p).
Proof.
  intros Hrun Hp.
  assert (Hcut : t = []
                 \/ ((forall s', status (exec (beforeAwait t) s') = GENERATING
                                 \/ status (exec (beforeAwait t) s') = EDITING)
                     /\ settlesIdle (afterAwait t))).
  { destruct Hrun as [-> | Hrun]; [left; reflexivity|].
    exact (controllerRun_cut ai now (store p) t Hrun). }
  destruct Hcut as [-> | [Hbusy Hidle]]; [exact Hp|].
  destruct t as [|e t']; [exact Hp|].
  destruct Hp as [_ [Hcalls Hloads]]. unfold invoke, accounted. cbn [store calls loads].
  split; [|split].
  - right. split; [apply Hbusy|].
    intro Hnil. apply app_eq_nil in Hnil. destruct Hnil as [_ Hnil]. discriminate.
  - apply Forall_app. split; [exact Hcalls|]. constructor; [exact Hidle | constructor].
  - exact Hloads.
Qed.

Lemma pageStep_accounted (trim : string -> string) (p : Page) (ev : PageEvent) :
  accounted p -> accounted (pageStep trim p ev).
Proof.
  intro Hp.
  destruct ev as [file | sample | ai now styleId | ai now input | idx | | k | k];
    cbn [pageStep].
  - destruct (JS.truthy (originalImage (store p))); [exact Hp|].
    destruct file as [base64|]; [|exact Hp].
    destruct Hp as [Hstatus [Hcalls Hloads]]. unfold accounted. cbn.
    split; [exact Hstatus|]. split; [exact Hcalls|].
    apply Forall_app. split; [exact Hloads|].
    constructor; [|constructor]. left. intro s. reflexivity.
  - destruct (JS.truthy (originalImage (store p))); [exact Hp|].
    destruct Hp as [Hstatus [Hcalls Hloads]]. unfold accounted. cbn [store calls loads].
    split; [exact Hstatus|]. split; [exact Hcalls|].
    apply Forall_app. split; [exact Hloads|].
    constructor; [|constructor].
    destruct sample as [base64|]; [left | right]; intro s; reflexivity.
  - destruct (JS.truthy (originalImage (store p))); [|exact Hp].
    apply (invoke_accounted ai now); [apply styleButton_run | exact Hp].
  - apply (invoke_accounted ai now); [apply chatForm_run | exact Hp].
  - destruct (JS.truthy (originalImage (store p))
              && (idx <? List.length (generatedImages (store p)))%nat);
      [|exact Hp].
    exact Hp.
  - destruct (JS.truthy (originalImage (store p))); [|exact Hp].
    exact Hp.
  - destruct (nth_error (calls p) k) as [rest|] eqn:Hk; [|exact Hp].
    destruct Hp as [_ [Hcalls Hloads]]. unfold accounted. cbn [store calls loads].
    split; [|split].
    + left. apply (proj1 (Forall_forall _ _) Hcalls rest (nth_error_In _ _ Hk)).
    + apply Forall_dropNth. exact Hcalls.
    + exact Hloads.
  - destruct (nth_error (loads p) k) as [rest|] eqn:Hk; [|exact Hp].
    destruct Hp as [Hstatus [Hcalls Hloads]]. unfold accounted. cbn [store calls loads].
    split; [|split].
    + destruct (proj1 (Forall_forall _ _) Hloads rest (nth_error_In _ _ Hk))
        as [Hidle | Hkeep].
      * left. apply Hidle.
      * rewrite (Hkeep (store p)). exact Hstatus.
    + exact Hcalls.
    + apply Forall_dropNth. exact Hloads.
Qed.

Lemma pageRun_accounted (trim : string -> string) (events : list PageEvent) :
  forall p, accounted p -> accounted (pageRun trim events p).
Proof.
  induction events as [|ev rest IH]; intros p Hp; [exact Hp|].
  apply (IH (pageStep trim p ev)), pageStep_accounted, Hp.
Qed.

(** X20: the page with calls in flight.  A handler runs up to its [await]
    when it is invoked and the rest when its call settles; file reads and
    sample fetches complete later too; "Start Over", thumbnails, new uploads
    and further submissions may come in between, and pending calls may settle
    in any order.  Over every such sequence of events from the initial page,
    whatever the service answers: the status is [GENERATING] or [EDITING]
    only while a gateway call is pending, so it is [IDLE] whenever no call is
    pending; it is never [ERROR]; and every pending call sets it to [IDLE]
    when it settles. *)
Theorem page_busy_only_while_pending (trim : string -> string)
    (events : list PageEvent) :
  (status (store (pageRun trim events initialPage)) = IDLE
   \/ ((status (store (pageRun trim events initialPage)) = GENERATING
        \/ status (store (pageRun trim events initialPage)) = EDITING)
       /\ calls (pageRun trim events initialPage) <> []))
  /\ (calls (pageRun trim events initialPage) = [] ->
      status (store (pageRun trim events initialPage)) = IDLE)
  /\ status (store (pageRun trim events initialPage)) <> ERROR
  /\ (forall k rest s,
        nth_error (calls (pageRun trim events initialPage)) k = Some rest ->
        status (exec rest s) = IDLE).
Proof.
  assert (Hinit : accounted initialPage).
  { unfold accounted. cbn. split; [left; reflexivity|]. split; constructor. }
  destruct (pageRun_accounted trim events initialPage Hinit)
    as [Hstatus [Hcalls _]].
  split; [exact Hstatus|]. split; [|split].
  - intro Hnil. destruct Hstatus as [H | [_ H]]; [exact H | contradiction].
  - destruct Hstatus as [H | [[H | H] _]]; rewrite H; discriminate.
  - intros k rest s Hk.
    apply (proj1 (Forall_forall _ _) Hcalls rest (nth_error_In _ _ Hk)).
Qed.

(** The events of [Demo.startOverWhilePending] end with no call pending, the
    status [IDLE], one image in the history and the selected index 1. *)
Lemma page_busy_only_while_pending_witness :
  status (store (pageRun Sample.trim Demo.startOverWhilePending initialPage)) = IDLE
  /\ List.length
       (generatedImages
          (store (pageRun Sample.trim Demo.startOverWhilePending initialPage)))
     = 1%nat
  /\ selectedImageIndex
       (store (pageRun Sample.trim Demo.startOverWhilePending initialPage))
     = 1%Z.
Proof.
  destruct (page_busy_only_while_pending Sample.trim Demo.startOverWhilePending)
    as [_ [Hidle _]].
  split; [apply Hidle; reflexivity|].
  split; reflexivity.
Defined.

(** ** Outcomes of the image operations *)

Lemma extractImage_Some (parts : list Gemini.Part) (url : string) :
  extractImage parts = Some url ->
  exists part d,
    In part parts /\ Gemini.inlineData part = Some d /\ url = dataUrl d.
Proof.
  induction parts as [|part rest IH]; simpl; [discriminate|].
  destruct (Gemini.inlineData part) as [d|] eqn:Hd.
  - intro H. injection H as <-. exists part, d.
    split; [left; reflexivity|]. split; [exact Hd | reflexivity].
  - intro H. destruct (IH H) as [p [d [Hin [Hp Hurl]]]].
    exists p, d. split; [right; exact Hin|]. split; [exact Hp | exact Hurl].
Qed.

Lemma dataUrl_shape (d : Gemini.InlineData) :
  exists mime payload,
    dataUrl d = "data:" ++ mime ++ ";base64," ++ payload
    /\ mime <> "".
Proof.
  exists (JS.orElse (Gemini.mimeType d) "image/jpeg"), (interpolate (Gemini.data d)).
  split; [reflexivity | apply orElse_nonempty; discriminate].
Qed.

(** X21: the outcomes of Regenerate and Edit.  When the service call throws,
    the operation rejects with what was thrown.  Whenever it returns, the
    value is a data URL, "data:<mime>;base64,<payload>" with a MIME type that
    is never empty, built from a part of the response that carries inline
    data. *)
Theorem image_operation_outcomes (ai : Gemini.Service)
    (imageBase64 argument : string) :
  (ai (regenerateRequest imageBase64 argument) = Gemini.Threw ->
   generateReimaginedRoom ai imageBase64 argument = Rejected ServiceFailure)
  /\ (ai (editRequest imageBase64 argument) = Gemini.Threw ->
      editRoomImage ai imageBase64 argument = Rejected ServiceFailure)
  /\ (forall url,
        generateReimaginedRoom ai imageBase64 argument = Fulfilled url
        \/ editRoomImage ai imageBase64 argument = Fulfilled url ->
        exists mime payload,
          url = "data:" ++ mime ++ ";base64," ++ payload
          /\ mime <> "").
Proof.
  split; [|split].
  - intro H. unfold generateReimaginedRoom. rewrite H. reflexivity.
  - intro H. unfold editRoomImage. rewrite H. reflexivity.
  - intros url [H | H].
    + unfold generateReimaginedRoom in H.
      destruct (ai (regenerateRequest imageBase64 argument)) as [|response];
        [discriminate|].
      destruct (extractImage (responseParts response)) as [u|] eqn:Hx;
        [|discriminate].
      injection H as <-.
      destruct (extractImage_Some _ _ Hx) as [part [d [_ [_ ->]]]].
      apply dataUrl_shape.
    + unfold editRoomImage in H.
      destruct (ai (editRequest imageBase64 argument)) as [|response];
        [discriminate|].
      destruct (extractImage (responseParts response)) as [u|] eqn:Hx;
        [|discriminate].
      injection H as <-.
      destruct (extractImage_Some _ _ Hx) as [part [d [_ [_ ->]]]].
      apply dataUrl_shape.
Qed.

Lemma image_operation_outcomes_witness :
  generateReimaginedRoom Sample.down Sample.photo "Japandi style"
  = Rejected ServiceFailure
  /\ exists mime payload,
       "data:image/png;base64,BBBB" = "data:" ++ mime ++ ";base64," ++ payload
       /\ mime <> "".
Proof.
  destruct (image_operation_outcomes Sample.down Sample.photo "Japandi style")
    as [Hthrew _].
  destruct (image_operation_outcomes Sample.painter Sample.photo "Japandi style")
    as [_ [_ Hurl]].
  split.
  - apply Hthrew. reflexivity.
  - destruct (Hurl "data:image/png;base64,BBBB") as [mime [payload [Heq Hne]]].
    + left. reflexivity.
    + exists mime, payload. split; assumption.
Defined.


